(** * CommonSubexpressionEliminationPass: the pass driver of opt/cse

    A shallow embedding of [CommonSubexpressionEliminationPass.cpp]:
    the statistics record and its merge function, the configuration
    binding, the construction of the shared state and the per-method
    rewrite loop.  Everything the driver only calls (the CFG provider,
    the value-numbering engine, copy propagation, local DCE, the walkers)
    is taken as a parameter, bundled in the class [Collaborators]. *)

From stdpp Require Import gmap strings list fin_maps fin_sets.
From Stdlib Require Import ZArith Lia.

Local Open Scope Z_scope.

(** ** Machine integers

    Every counter of [Stats] is a [size_t]: an unsigned 64-bit integer
    whose [+=] and [++] wrap around. *)

Module SizeT.

Definition modulus : Z := 2 ^ 64.

Definition wrap (x : Z) : Z := x mod modulus.

Definition in_range (x : Z) : Prop := 0 <= x < modulus.

Definition add (x y : Z) : Z := wrap (x + y).

(** [x++] *)
Definition incr (x : Z) : Z := add x 1.

End SizeT.

(** ** Statistics

    [cse_impl::Stats].  The keys of [eliminated_opcodes] are [IROpcode]s
    encoded as [uint16_t]; the map is a [std::unordered_map], compared
    here by its bindings. *)

Record Stats : Type := mkStats {
  results_captured : Z;
  stores_captured : Z;
  array_lengths_captured : Z;
  instructions_eliminated : Z;
  max_value_ids : Z;
  methods_using_other_tracked_location_bit : Z;
  eliminated_opcodes : gmap Z Z;
  skipped_due_to_too_many_registers : Z;
  max_iterations : Z
}.

(** [Stats()] / [Stats{}]: every counter zero-initialised, the map empty. *)
Definition Stats_default : Stats :=
  {| results_captured := 0;
     stores_captured := 0;
     array_lengths_captured := 0;
     instructions_eliminated := 0;
     max_value_ids := 0;
     methods_using_other_tracked_location_bit := 0;
     eliminated_opcodes := ∅;
     skipped_due_to_too_many_registers := 0;
     max_iterations := 0 |}.

(** [m[k] += v]: [operator[]] default-inserts 0 for an absent key. *)
Definition map_add_at (k v : Z) (m : gmap Z Z) : gmap Z Z :=
  <[k := SizeT.add (default 0 (m !! k)) v]> m.

(** [for (auto& p : b) a[p.first] += p.second;] *)
Definition merge_opcodes (a b : gmap Z Z) : gmap Z Z :=
  map_fold map_add_at a b.

(** The lambda [aggregate_stats] of [run_pass]. *)
Definition aggregate_stats (a b : Stats) : Stats :=
  {| results_captured := SizeT.add (results_captured a) (results_captured b);
     stores_captured := SizeT.add (stores_captured a) (stores_captured b);
     array_lengths_captured :=
       SizeT.add (array_lengths_captured a) (array_lengths_captured b);
     instructions_eliminated :=
       SizeT.add (instructions_eliminated a) (instructions_eliminated b);
     max_value_ids := Z.max (max_value_ids a) (max_value_ids b);
     methods_using_other_tracked_location_bit :=
       SizeT.add (methods_using_other_tracked_location_bit a)
                 (methods_using_other_tracked_location_bit b);
     eliminated_opcodes :=
       merge_opcodes (eliminated_opcodes a) (eliminated_opcodes b);
     skipped_due_to_too_many_registers :=
       SizeT.add (skipped_due_to_too_many_registers a)
                 (skipped_due_to_too_many_registers b);
     max_iterations := Z.max (max_iterations a) (max_iterations b) |}.

(** [stats.max_iterations++] *)
Definition incr_max_iterations (s : Stats) : Stats :=
  {| results_captured := results_captured s;
     stores_captured := stores_captured s;
     array_lengths_captured := array_lengths_captured s;
     instructions_eliminated := instructions_eliminated s;
     max_value_ids := max_value_ids s;
     methods_using_other_tracked_location_bit :=
       methods_using_other_tracked_location_bit s;
     eliminated_opcodes := eliminated_opcodes s;
     skipped_due_to_too_many_registers := skipped_due_to_too_many_registers s;
     max_iterations := SizeT.incr (max_iterations s) |}.

(** A [Stats] value that the C++ type can hold: every counter is a
    [size_t]. *)
Record Stats_wf (s : Stats) : Prop := mkStats_wf {
  wf_results_captured : SizeT.in_range (results_captured s);
  wf_stores_captured : SizeT.in_range (stores_captured s);
  wf_array_lengths_captured : SizeT.in_range (array_lengths_captured s);
  wf_instructions_eliminated : SizeT.in_range (instructions_eliminated s);
  wf_max_value_ids : SizeT.in_range (max_value_ids s);
  wf_methods_using_other_tracked_location_bit :
    SizeT.in_range (methods_using_other_tracked_location_bit s);
  wf_eliminated_opcodes :
    map_Forall (λ _ v, SizeT.in_range v) (eliminated_opcodes s);
  wf_skipped_due_to_too_many_registers :
    SizeT.in_range (skipped_due_to_too_many_registers s);
  wf_max_iterations : SizeT.in_range (max_iterations s)
}.

(** What merging does to the binding of one key: [x] in [a], [y] in [b]. *)
Definition merge_binding (x y : option Z) : option Z :=
  match y with
  | Some v => Some (SizeT.add (default 0 x) v)
  | None => x
  end.

(** The sum of a list of counters, as a [size_t]. *)
Definition wrapped_sum (l : list Z) : Z := SizeT.wrap (foldr Z.add 0 l).

(** ** Program entities *)

(** [DexMethodRef*] and [DexType*] are interned pointers: compared and
    hashed by identity. *)
Definition DexMethodRef : Type := N.
Definition DexType : Type := N.

(** The fields of [copy_propagation_impl::Config] that the driver reads
    or writes. *)
Record Config : Type := mkConfig {
  eliminate_const_classes : bool;
  eliminate_const_strings : bool;
  static_finals : bool;
  max_estimated_registers : Z
}.

(** [ConfigFiles]: only [get_pure_methods()] is consulted. *)
Record ConfigFiles : Type := mkConfigFiles {
  conf_get_pure_methods : gset DexMethodRef
}.

(** [SharedState::get_stats()] *)
Record SharedStateStats : Type := mkSharedStateStats {
  method_barriers : Z;
  method_barriers_iterations : Z;
  conditionally_pure_methods : Z;
  conditionally_pure_methods_iterations : Z
}.

(** The CFG provider: [IRCode] with [build_cfg], [clear_cfg] and
    [editable_cfg_built].  [instructions] is the linear instruction
    content that a CFG is built from and cleared back to. *)
Class CfgProvider : Type := {
  IRCode : Type;
  IRList : Type;
  build_cfg : bool -> IRCode -> IRCode;
  clear_cfg : IRCode -> IRCode;
  editable_cfg_built : IRCode -> bool;
  instructions : IRCode -> IRList
}.

(** Modelled from the spec: the contract of the CFG provider ([IRCode.h]
    is not part of the sources): it supports "rebuilding from and
    clearing back to a linear instruction form". *)
Class CfgProviderLaws `{CfgProvider} : Prop := {
  built_after_build c : editable_cfg_built (build_cfg true c) = true;
  built_after_clear c : editable_cfg_built (clear_cfg c) = false;
  instructions_build c : instructions (build_cfg true c) = instructions c;
  instructions_clear c : instructions (clear_cfg c) = instructions c
}.

(** What the driver reads of a [DexMethod]. *)
Record DexMethod `{CfgProvider} : Type := mkDexMethod {
  get_code : option IRCode;
  no_optimizations : bool;
  is_static : bool;
  get_class : DexType;
  get_args : list DexType
}.

Definition set_code `{CfgProvider} (m : DexMethod) (c : option IRCode) : DexMethod :=
  {| get_code := c;
     no_optimizations := no_optimizations m;
     is_static := is_static m;
     get_class := get_class m;
     get_args := get_args m |}.

(** The collaborators of the driver.  [cse_patch] stands for the
    construction of a [CommonSubexpressionElimination] on the CFG, its
    [patch] and its [get_stats]: it yields [any_changes], the engine's
    statistics and the patched code. *)
Class Collaborators `{CfgProvider} : Type := {
  SharedState : Type;
  get_pure_methods : gset DexMethodRef;
  SharedState_new : gset DexMethodRef -> SharedState;
  init_scope : SharedState -> list DexMethod -> SharedState;
  shared_get_pure_methods : SharedState -> gset DexMethodRef;
  shared_get_stats : SharedState -> SharedStateStats;
  cse_patch :
    SharedState -> bool -> DexType -> list DexType -> Z -> bool ->
    IRCode -> bool * Stats * IRCode;
  Config_default : Config;
  copy_propagation_run : Config -> IRCode -> DexMethod -> IRCode;
  local_dce : gset DexMethodRef -> IRCode -> IRCode;
  default_num_threads : Z;
  show_opcode : Z -> string;
  work_assignment : Z -> list Stats -> list (list Stats)
}.

(** ** Pass configuration *)

(** The pass's JSON configuration, as far as [bind_config] reads it. *)
Record Pass : Type := mkPass {
  m_debug : bool;
  m_runtime_assertions : bool
}.

(** [bind(name, default, member)] *)
Definition bind (name : string) (dflt : bool) (json : gmap string bool) : bool :=
  default dflt (json !! name).

Definition bind_config (json : gmap string bool) : Pass :=
  {| m_debug := bind "debug" false json;
     m_runtime_assertions := bind "runtime_assertions" false json |}.

(** ** Outcomes and the worker monad *)

(** A run either completes, dies in [always_assert], or is cut off by
    the fuel of the model (the source loop is [while (true)]). *)
Inductive Res (A : Type) : Type :=
  | Ok (a : A)
  | AssertFailed
  | OutOfFuel.
Arguments Ok {A} a.
Arguments AssertFailed {A}.
Arguments OutOfFuel {A}.

Global Instance Res_ret : MRet Res := λ A a, Ok a.
Global Instance Res_bind : MBind Res := λ A B f r,
  match r with
  | Ok a => f a
  | AssertFailed => AssertFailed
  | OutOfFuel => OutOfFuel
  end.

(** Calls that the worker makes on a method's code. *)
Inductive Event : Type :=
  | EvBuildCfg (editable : bool)
  | EvClearCfg
  | EvCsePatch (max_registers : Z) (runtime_assertions : bool)
  | EvCopyPropagation (config : Config)
  | EvLocalDce (pure_methods : gset DexMethodRef).

Inductive LoopStep : Type :=
  | Continue (stats : Stats)
  | Return (stats : Stats).

Section Driver.
Context `{Collaborators}.

(** The worker owns the method's code and mutates it in place; [calls]
    is the log of what it has asked of its collaborators. *)
Record WState : Type := mkWState {
  code : IRCode;
  calls : list Event
}.

Definition M (A : Type) : Type := WState -> Res (A * WState).

Global Instance M_ret : MRet M := λ A a st, Ok (a, st).
Global Instance M_bind : MBind M := λ A B f m st,
  match m st with
  | Ok (a, st') => f a st'
  | AssertFailed => AssertFailed
  | OutOfFuel => OutOfFuel
  end.

(** A mutating call on the code. *)
Definition call (ev : Event) (f : IRCode -> IRCode) : M unit :=
  λ st, Ok (tt, {| code := f (code st); calls := calls st ++ [ev] |}).

(** A mutating call on the code that also returns a value. *)
Definition call_with {A} (ev : Event) (f : IRCode -> A * IRCode) : M A :=
  λ st, let '(a, c) := f (code st) in
        Ok (a, {| code := c; calls := calls st ++ [ev] |}).

(** A read of the code. *)
Definition query {A} (f : IRCode -> A) : M A :=
  λ st, Ok (f (code st), st).

Definition always_assert (b : bool) : M unit :=
  λ st, if b then Ok (tt, st) else AssertFailed.

Definition out_of_fuel {A} : M A := λ _, OutOfFuel.

(** *** [run_pass], lines 58-71 *)

(** [s.insert(first, last)] on an [unordered_set]. *)
Definition insert_range (s new : gset DexMethodRef) : gset DexMethodRef :=
  set_fold (λ x acc, {[x]} ∪ acc) s new.

Definition pure_methods (conf : ConfigFiles) : gset DexMethodRef :=
  insert_range get_pure_methods (conf_get_pure_methods conf).

Definition make_shared_state (conf : ConfigFiles) (scope : list DexMethod)
  : SharedState :=
  let shared_state := SharedState_new (pure_methods conf) in
  init_scope shared_state scope.

Definition copy_prop_config : Config :=
  {| eliminate_const_classes := false;
     eliminate_const_strings := false;
     static_finals := false;
     max_estimated_registers := max_estimated_registers Config_default |}.

(** *** The per-method worker, lines 90-135 *)

Section Worker.
Variable pass : Pass.
Variable shared_state : SharedState.
Variable method : DexMethod.

(** One turn of [while (true)], lines 103-133. *)
Definition loop_body (stats : Stats) : M LoopStep :=
  let stats := incr_max_iterations stats in
  built ← query editable_cfg_built;
  always_assert built;;
  '(any_changes, cse_stats) ←
    call_with (EvCsePatch (max_estimated_registers copy_prop_config)
                          (m_runtime_assertions pass))
      (cse_patch shared_state (is_static method) (get_class method)
         (get_args method) (max_estimated_registers copy_prop_config)
         (m_runtime_assertions pass));
  let stats := aggregate_stats stats cse_stats in
  call EvClearCfg clear_cfg;;
  if negb any_changes then mret (Return stats)
  else
    call (EvCopyPropagation copy_prop_config)
      (λ c, copy_propagation_run copy_prop_config c
              (set_code method (Some c)));;
    call (EvBuildCfg true) (build_cfg true);;
    call (EvLocalDce (shared_get_pure_methods shared_state))
      (local_dce (shared_get_pure_methods shared_state));;
    mret (Continue stats).

Fixpoint rewrite_loop (fuel : nat) (stats : Stats) : M Stats :=
  match fuel with
  | O => out_of_fuel
  | S fuel' =>
      step ← loop_body stats;
      match step with
      | Return stats' => mret stats'
      | Continue stats' => rewrite_loop fuel' stats'
      end
  end.

(** The body of the lambda once [code] is known to be non-null. *)
Definition process_code (fuel : nat) : M Stats :=
  if no_optimizations method then
    call EvClearCfg clear_cfg;;
    mret Stats_default
  else rewrite_loop fuel Stats_default.

(** The lambda handed to [reduce_methods]: the statistics, the
    method as the worker leaves it, and the calls it made. *)
Definition process_method (fuel : nat)
  : Res (Stats * DexMethod * list Event) :=
  match get_code method with
  | None => Ok (Stats_default, method, [])
  | Some c =>
      '(stats, st) ← process_code fuel {| code := c; calls := [] |};
      Ok (stats, set_code method (Some (code st)), calls st)
  end.

End Worker.

(** *** [run_pass], lines 52-56 and 88-165 *)

(** [walk::parallel::code(scope, ...)] visits the methods that have code
    and builds an editable CFG for each. *)
Definition build_all_cfgs (scope : list DexMethod) : list DexMethod :=
  map (λ m, match get_code m with
            | Some c => set_code m (Some (build_cfg true c))
            | None => m
            end) scope.

(** The parallelism argument of [reduce_methods], line 138. *)
Definition reduce_num_threads (pass : Pass) : Z :=
  if m_debug pass then 1 else default_num_threads.

(** Modelled from the spec: [walk::parallel::reduce_methods] ([Walkers.h]
    is not part of the sources), a thread pool over the methods: every
    worker thread folds the results of the methods it is handed into an
    accumulator of its own that starts at [init], and the accumulators
    are folded together, again from [init].  [assignment] is the list of
    per-thread result lists that the scheduler produced. *)
Definition reduce_methods (reducer : Stats -> Stats -> Stats) (init : Stats)
  (assignment : list (list Stats)) : Stats :=
  foldl reducer init (map (foldl reducer init) assignment).

(** [PassManager::incr_metric]: the metrics sink, as the sequence of
    the calls made on it. *)
Definition incr_metric (name : string) (value : Z) (mgr : list (string * Z))
  : list (string * Z) :=
  mgr ++ [(name, value)].

(** Lines 155-159. *)
Definition report_opcodes (opcodes : gmap Z Z) (mgr : list (string * Z))
  : list (string * Z) :=
  foldl (λ mgr p, incr_metric ("instr_" +:+ show_opcode p.1) p.2 mgr)
        mgr (map_to_list opcodes).

(** Lines 139-162. *)
Definition report_metrics (stats : Stats) (shared_state_stats : SharedStateStats)
  (mgr : list (string * Z)) : list (string * Z) :=
  let mgr := incr_metric "num_results_captured" (results_captured stats) mgr in
  let mgr := incr_metric "num_stores_captured" (stores_captured stats) mgr in
  let mgr := incr_metric "num_array_lengths_captured"
               (array_lengths_captured stats) mgr in
  let mgr := incr_metric "num_eliminated_instructions"
               (instructions_eliminated stats) mgr in
  let mgr := incr_metric "max_value_ids" (max_value_ids stats) mgr in
  let mgr := incr_metric "methods_using_other_tracked_location_bit"
               (methods_using_other_tracked_location_bit stats) mgr in
  let mgr := incr_metric "num_method_barriers"
               (method_barriers shared_state_stats) mgr in
  let mgr := incr_metric "num_method_barriers_iterations"
               (method_barriers_iterations shared_state_stats) mgr in
  let mgr := incr_metric "num_conditionally_pure_methods"
               (conditionally_pure_methods shared_state_stats) mgr in
  let mgr := incr_metric "num_conditionally_pure_methods_iterations"
               (conditionally_pure_methods_iterations shared_state_stats) mgr in
  let mgr := report_opcodes (eliminated_opcodes stats) mgr in
  let mgr := incr_metric "num_skipped_due_to_too_many_registers"
               (skipped_due_to_too_many_registers stats) mgr in
  incr_metric "num_max_iterations" (max_iterations stats) mgr.

(** What [run_pass] leaves behind: the methods of the scope, the calls
    each worker made, and the metrics reported. *)
Record PassResult : Type := mkPassResult {
  methods : list DexMethod;
  worker_calls : list (list Event);
  metrics : list (string * Z)
}.

(** The workers touch disjoint methods, so they are run here in scope
    order; only the merge of their statistics follows the scheduler. *)
Definition run_pass (fuel : nat) (pass : Pass) (conf : ConfigFiles)
  (scope : list DexMethod) : Res PassResult :=
  let scope := build_all_cfgs scope in
  let shared_state := make_shared_state conf scope in
  results ← mapM (λ method, process_method pass shared_state method fuel) scope;
  let stats :=
    reduce_methods aggregate_stats Stats_default
      (work_assignment (reduce_num_threads pass) (results.*1.*1)) in
  mret {| methods := results.*1.*2;
          worker_calls := results.*2;
          metrics := report_metrics stats (shared_get_stats shared_state) [] |}.

(** *** Runs of the rewrite loop

    [loop_returns pass ss m n s st s' st']: started with statistics [s]
    in state [st], the loop of worker [m] returns [s'] in state [st']
    at the end of its [n]-th turn. *)
Inductive loop_returns (pass : Pass) (ss : SharedState) (m : DexMethod)
  : nat -> Stats -> WState -> Stats -> WState -> Prop :=
  | loop_returns_last s st s' st' :
      loop_body pass ss m s st = Ok (Return s', st') ->
      loop_returns pass ss m 1 s st s' st'
  | loop_returns_next n s st s1 st1 s' st' :
      loop_body pass ss m s st = Ok (Continue s1, st1) ->
      loop_returns pass ss m n s1 st1 s' st' ->
      loop_returns pass ss m (S n) s st s' st'.

(** [loop_enters pass ss m s st s1 st1]: a loop started in [(s, st)]
    comes to the top of a turn in [(s1, st1)]. *)
Inductive loop_enters (pass : Pass) (ss : SharedState) (m : DexMethod)
  : Stats -> WState -> Stats -> WState -> Prop :=
  | loop_enters_first s st : loop_enters pass ss m s st s st
  | loop_enters_next s st s1 st1 s2 st2 :
      loop_body pass ss m s st = Ok (Continue s1, st1) ->
      loop_enters pass ss m s1 st1 s2 st2 ->
      loop_enters pass ss m s st s2 st2.

(** *** The shape of one turn *)

Section Turn.
Variable pass : Pass.
Variable ss : SharedState.
Variable m : DexMethod.

(** What the engine answers on code [c] for this worker. *)
Definition patch_result (c : IRCode) : bool * Stats * IRCode :=
  cse_patch ss (is_static m) (get_class m) (get_args m)
    (max_estimated_registers copy_prop_config) (m_runtime_assertions pass) c.

(** The calls of a turn up to the test of [any_changes], and after it. *)
Definition turn_head_calls : list Event :=
  [EvCsePatch (max_estimated_registers copy_prop_config)
              (m_runtime_assertions pass);
   EvClearCfg].

Definition turn_tail_calls : list Event :=
  [EvCopyPropagation copy_prop_config;
   EvBuildCfg true;
   EvLocalDce (shared_get_pure_methods ss)].

(** The code at the end of a turn that goes on, from the patched code. *)
Definition turn_tail_code (c : IRCode) : IRCode :=
  let c := clear_cfg c in
  let c := copy_propagation_run copy_prop_config c (set_code m (Some c)) in
  let c := build_cfg true c in
  local_dce (shared_get_pure_methods ss) c.

(** The number of turns the worker of [m] takes: none when the method
    has no code or is not to be optimised. *)
Inductive method_iterations : nat -> Prop :=
  | method_iterations_no_code :
      get_code m = None -> method_iterations 0
  | method_iterations_no_optimizations c :
      get_code m = Some c -> no_optimizations m = true ->
      method_iterations 0
  | method_iterations_loop c n s' st' :
      get_code m = Some c -> no_optimizations m = false ->
      loop_returns pass ss m n Stats_default {| code := c; calls := [] |} s' st' ->
      method_iterations n.

End Turn.

(** The copy-propagation features that would interfere with CSE are
    off in [config]. *)
Definition interfering_features_off (config : Config) : Prop :=
  eliminate_const_classes config = false
  ∧ eliminate_const_strings config = false
  ∧ static_finals config = false.

(** Every call of copy propagation in the log has them off. *)
Definition copy_propagation_calls_ok (log : list Event) : Prop :=
  Forall (λ ev, match ev with
                | EvCopyPropagation config => interfering_features_off config
                | _ => True
                end) log.

(** The engine leaves [max_iterations] alone: only the driver counts
    turns. *)
Definition engine_counts_no_iterations : Prop :=
  ∀ ss' st cls args regs ra c,
    max_iterations (cse_patch ss' st cls args regs ra c).1.2 = 0.

(** The scheduler hands every result to exactly one thread. *)
Definition assignment_complete : Prop :=
  ∀ n (l : list Stats), concat (work_assignment n l) ≡ₚ l.


(** The DCE hands back an editable CFG when it is given one. *)
Definition dce_keeps_cfg : Prop :=
  ∀ pure c, editable_cfg_built c = true ->
            editable_cfg_built (local_dce pure c) = true.

(** The worker has nothing to do on [m]: it has no code, or it is not
    to be optimised. *)
Definition nothing_to_optimize (m : DexMethod) : Prop :=
  get_code m = None ∨ no_optimizations m = true.


(** The calls of a loop that returns at the end of its [n]-th turn:
    [n - 1] full turns and the head of the last one. *)
Definition loop_calls (pass : Pass) (ss : SharedState) (n : nat) : list Event :=
  mjoin (replicate (n - 1) (turn_head_calls pass ++ turn_tail_calls ss))
  ++ turn_head_calls pass.

(** The metric reported for one binding of [eliminated_opcodes]. *)
Definition opcode_metric (p : Z * Z) : string * Z :=
  ("instr_" +:+ show_opcode p.1, p.2).

(** The metrics of lines 139-154, and of lines 160-162. *)
Definition metrics_before_opcodes (stats : Stats) (sss : SharedStateStats)
  : list (string * Z) :=
  [("num_results_captured", results_captured stats);
   ("num_stores_captured", stores_captured stats);
   ("num_array_lengths_captured", array_lengths_captured stats);
   ("num_eliminated_instructions", instructions_eliminated stats);
   ("max_value_ids", max_value_ids stats);
   ("methods_using_other_tracked_location_bit",
    methods_using_other_tracked_location_bit stats);
   ("num_method_barriers", method_barriers sss);
   ("num_method_barriers_iterations", method_barriers_iterations sss);
   ("num_conditionally_pure_methods", conditionally_pure_methods sss);
   ("num_conditionally_pure_methods_iterations",
    conditionally_pure_methods_iterations sss)].

Definition metrics_after_opcodes (stats : Stats) : list (string * Z) :=
  [("num_skipped_due_to_too_many_registers",
    skipped_due_to_too_many_registers stats);
   ("num_max_iterations", max_iterations stats)].

End Driver.

(** ** Two small sets of collaborators, to run the driver on

    The code is a number of redundant instructions still to be found,
    together with the flag of the editable CFG.  The [converging] engine
    eliminates one redundant instruction per turn and reports no changes
    once none is left; the other engine reports a change on every turn. *)
Module Toy.

Definition cfg : CfgProvider :=
  {| IRCode := nat * bool;
     IRList := nat;
     build_cfg := λ editable c, (c.1, editable);
     clear_cfg := λ c, (c.1, false);
     editable_cfg_built := λ c, c.2;
     instructions := λ c, c.1 |}.

(** What the engine reports for one eliminated instruction, of opcode 7. *)
Definition one_eliminated : Stats :=
  {| results_captured := 1;
     stores_captured := 0;
     array_lengths_captured := 0;
     instructions_eliminated := 1;
     max_value_ids := 5;
     methods_using_other_tracked_location_bit := 0;
     eliminated_opcodes := {[ 7 := 1 ]};
     skipped_due_to_too_many_registers := 0;
     max_iterations := 0 |}.

Definition patch (converging : bool) (c : @IRCode cfg)
  : bool * Stats * @IRCode cfg :=
  if converging then
    match c.1 with
    | O => (false, Stats_default, c)
    | S n => (true, one_eliminated, (n, c.2))
    end
  else (true, Stats_default, c).

Definition collaborators (converging : bool) : @Collaborators cfg :=
  {| SharedState := gset DexMethodRef;
     get_pure_methods := {[ 1%N ]};
     SharedState_new := λ pure, pure;
     init_scope := λ ss _, ss;
     shared_get_pure_methods := λ ss, ss;
     shared_get_stats := λ _, mkSharedStateStats 0 0 0 0;
     cse_patch := λ _ _ _ _ _ _, patch converging;
     Config_default := mkConfig true true true 3000;
     copy_propagation_run := λ _ (c : @IRCode cfg) _, c;
     local_dce := λ _ (c : @IRCode cfg), c;
     default_num_threads := 8;
     show_opcode := λ _, "op";
     work_assignment := λ _ l, [l] |}.

Definition method (pending : nat) (no_opt : bool) : @DexMethod cfg :=
  {| get_code := Some ((pending, true) : @IRCode cfg);
     no_optimizations := no_opt;
     is_static := false;
     get_class := 10%N;
     get_args := [] |}.

Definition abstract_method : @DexMethod cfg :=
  {| get_code := None;
     no_optimizations := false;
     is_static := false;
     get_class := 10%N;
     get_args := [] |}.

(** The worker's state on entry: the CFG built, nothing called yet. *)
Definition entry (pending : nat) : @WState cfg :=
  {| code := ((pending, true) : @IRCode cfg); calls := [] |}.

Definition pass : Pass := bind_config ∅.

Definition conf : ConfigFiles := {| conf_get_pure_methods := {[ 2%N ]} |}.

(** A scope of four methods: two to rewrite, one without code, one not
    to be optimised. *)
Definition scope : list (@DexMethod cfg) :=
  [method 2 false; abstract_method; method 1 false; method 4 true].


End Toy.

(** * Facts *)

(** ** Arithmetic of [size_t] *)

Lemma SizeT_modulus_pos : 0 < SizeT.modulus.
Proof. reflexivity. Qed.

Lemma SizeT_wrap_in_range x : SizeT.in_range (SizeT.wrap x).
Proof. unfold SizeT.in_range, SizeT.wrap. apply Z.mod_pos_bound, SizeT_modulus_pos. Qed.

Lemma SizeT_wrap_small x : SizeT.in_range x -> SizeT.wrap x = x.
Proof. unfold SizeT.in_range, SizeT.wrap. intros H. by apply Z.mod_small. Qed.

Lemma SizeT_add_in_range x y : SizeT.in_range (SizeT.add x y).
Proof. apply SizeT_wrap_in_range. Qed.

Lemma SizeT_add_comm x y : SizeT.add x y = SizeT.add y x.
Proof. unfold SizeT.add. by rewrite Z.add_comm. Qed.

Lemma SizeT_add_assoc x y z : SizeT.add x (SizeT.add y z) = SizeT.add (SizeT.add x y) z.
Proof.
  unfold SizeT.add, SizeT.wrap.
  rewrite Zplus_mod_idemp_r, Zplus_mod_idemp_l. by rewrite Z.add_assoc.
Qed.

Lemma SizeT_add_0_l x : SizeT.in_range x -> SizeT.add 0 x = x.
Proof. intros H. unfold SizeT.add. by apply SizeT_wrap_small. Qed.

Lemma SizeT_add_0_r x : SizeT.in_range x -> SizeT.add x 0 = x.
Proof. intros H. rewrite SizeT_add_comm. by apply SizeT_add_0_l. Qed.

Lemma SizeT_max_in_range x y : SizeT.in_range x -> SizeT.in_range y -> SizeT.in_range (Z.max x y).
Proof. unfold SizeT.in_range. lia. Qed.

Lemma SizeT_max_0_l x : SizeT.in_range x -> Z.max 0 x = x.
Proof. unfold SizeT.in_range. lia. Qed.

Lemma SizeT_max_0_r x : SizeT.in_range x -> Z.max x 0 = x.
Proof. unfold SizeT.in_range. lia. Qed.


(** *** The merged opcode map, binding by binding *)

Lemma lookup_merge_opcodes (a b : gmap Z Z) (k : Z) :
  merge_opcodes a b !! k = merge_binding (a !! k) (b !! k).
Proof.
  unfold merge_opcodes.
  apply (map_fold_weak_ind
           (λ r (m : gmap Z Z), r !! k = merge_binding (a !! k) (m !! k))).
  - by rewrite lookup_empty.
  - intros i x m r Hi IH. unfold map_add_at.
    destruct (decide (i = k)) as [->|Hne].
    + rewrite !lookup_insert_eq. rewrite IH, Hi. done.
    + rewrite !lookup_insert_ne by done. done.
Qed.

(** Equations between sums modulo [2^64]: push every [mod] outwards and
    compare the sums. *)
Ltac size_t_ring :=
  unfold SizeT.incr, SizeT.add, SizeT.wrap;
  repeat (rewrite Zplus_mod_idemp_l || rewrite Zplus_mod_idemp_r);
  f_equal; lia.

Lemma merge_binding_comm (x y : option Z) :
  from_option SizeT.in_range True x ->
  from_option SizeT.in_range True y ->
  merge_binding x y = merge_binding y x.
Proof.
  destruct x as [x|], y as [y|]; simpl; intros Hx Hy; try done.
  - by rewrite SizeT_add_comm.
  - by rewrite SizeT_add_0_l.
  - by rewrite SizeT_add_0_l.
Qed.

Lemma merge_binding_assoc (x y z : option Z) :
  merge_binding x (merge_binding y z) = merge_binding (merge_binding x y) z.
Proof.
  destruct x as [x|], y as [y|], z as [z|]; simpl; try done;
    f_equal; size_t_ring.
Qed.

Lemma merge_binding_swap (x y z : option Z) :
  merge_binding (merge_binding x y) z = merge_binding (merge_binding x z) y.
Proof.
  destruct x as [x|], y as [y|], z as [z|]; simpl; try done;
    f_equal; size_t_ring.
Qed.

Lemma merge_binding_in_range (x y : option Z) :
  from_option SizeT.in_range True x ->
  from_option SizeT.in_range True (merge_binding x y).
Proof.
  destruct x as [x|], y as [y|]; simpl; intros Hx; try done;
    apply SizeT_add_in_range.
Qed.

Lemma map_Forall_lookup_range (m : gmap Z Z) (k : Z) :
  map_Forall (λ _ v, SizeT.in_range v) m ->
  from_option SizeT.in_range True (m !! k).
Proof.
  intros H. destruct (m !! k) as [v|] eqn:E; simpl; [|done].
  by apply (H k v).
Qed.


(** ** The merge of statistics *)

Lemma Stats_default_wf : Stats_wf Stats_default.
Proof.
  split; simpl; try (unfold SizeT.in_range, SizeT.modulus; lia).
  apply map_Forall_empty.
Qed.

Lemma aggregate_stats_wf (a b : Stats) :
  Stats_wf a -> Stats_wf b -> Stats_wf (aggregate_stats a b).
Proof.
  intros [] []. split; simpl;
    try apply SizeT_add_in_range; try by apply SizeT_max_in_range.
  intros k v Hk. rewrite lookup_merge_opcodes in Hk.
  pose proof (merge_binding_in_range (eliminated_opcodes a !! k)
                (eliminated_opcodes b !! k)) as Hr.
  rewrite Hk in Hr. apply Hr. by apply map_Forall_lookup_range.
Qed.

Lemma merge_opcodes_assoc (a b c : gmap Z Z) :
  merge_opcodes a (merge_opcodes b c) = merge_opcodes (merge_opcodes a b) c.
Proof.
  apply map_eq. intros k. rewrite !lookup_merge_opcodes.
  apply merge_binding_assoc.
Qed.

Lemma merge_opcodes_comm (a b : gmap Z Z) :
  map_Forall (λ _ v, SizeT.in_range v) a ->
  map_Forall (λ _ v, SizeT.in_range v) b ->
  merge_opcodes a b = merge_opcodes b a.
Proof.
  intros Ha Hb. apply map_eq. intros k. rewrite !lookup_merge_opcodes.
  apply merge_binding_comm; by apply map_Forall_lookup_range.
Qed.

Lemma merge_opcodes_swap (a b c : gmap Z Z) :
  merge_opcodes (merge_opcodes a b) c = merge_opcodes (merge_opcodes a c) b.
Proof.
  apply map_eq. intros k. rewrite !lookup_merge_opcodes.
  apply merge_binding_swap.
Qed.

Lemma merge_opcodes_empty_r (a : gmap Z Z) : merge_opcodes a ∅ = a.
Proof. unfold merge_opcodes. apply map_fold_empty. Qed.

Lemma merge_opcodes_empty_l (a : gmap Z Z) :
  map_Forall (λ _ v, SizeT.in_range v) a -> merge_opcodes ∅ a = a.
Proof.
  intros Ha. rewrite merge_opcodes_comm; [apply merge_opcodes_empty_r | | done].
  apply map_Forall_empty.
Qed.

Lemma aggregate_stats_assoc (a b c : Stats) :
  aggregate_stats a (aggregate_stats b c)
  = aggregate_stats (aggregate_stats a b) c.
Proof.
  unfold aggregate_stats; simpl.
  rewrite !SizeT_add_assoc, !Z.max_assoc, merge_opcodes_assoc. done.
Qed.

Lemma aggregate_stats_comm (a b : Stats) :
  Stats_wf a -> Stats_wf b -> aggregate_stats a b = aggregate_stats b a.
Proof.
  intros [] []. unfold aggregate_stats.
  rewrite (merge_opcodes_comm (eliminated_opcodes a)) by done.
  f_equal; first [apply SizeT_add_comm | apply Z.max_comm].
Qed.

Lemma aggregate_stats_swap (a b c : Stats) :
  aggregate_stats (aggregate_stats a b) c
  = aggregate_stats (aggregate_stats a c) b.
Proof.
  unfold aggregate_stats; simpl.
  rewrite (merge_opcodes_swap (eliminated_opcodes a)).
  f_equal; first [size_t_ring | lia].
Qed.

Lemma aggregate_stats_default_r (a : Stats) :
  Stats_wf a -> aggregate_stats a Stats_default = a.
Proof.
  intros []. destruct a; unfold aggregate_stats; simpl in *.
  rewrite merge_opcodes_empty_r.
  f_equal; first [by apply SizeT_add_0_r | by apply SizeT_max_0_r].
Qed.

Lemma aggregate_stats_default_l (a : Stats) :
  Stats_wf a -> aggregate_stats Stats_default a = a.
Proof.
  intros Ha. rewrite aggregate_stats_comm; [|apply Stats_default_wf|done].
  by apply aggregate_stats_default_r.
Qed.

(** ** Folding the merge over per-method results *)

Lemma foldl_aggregate_wf (l : list Stats) (a : Stats) :
  Stats_wf a -> Forall Stats_wf l -> Stats_wf (foldl aggregate_stats a l).
Proof.
  intros Ha Hl. revert a Ha.
  induction Hl as [|x l Hx Hl IH]; intros a Ha; simpl; [done|].
  apply IH. by apply aggregate_stats_wf.
Qed.

(** The order of the results does not matter, whatever the accumulator. *)
Lemma foldl_aggregate_perm (l l' : list Stats) (a : Stats) :
  l ≡ₚ l' -> foldl aggregate_stats a l = foldl aggregate_stats a l'.
Proof.
  intros Hp. revert a.
  induction Hp as [|x l l' Hp IH|x y l|l l' l'' Hp1 IH1 Hp2 IH2];
    intros a; simpl.
  - done.
  - apply IH.
  - by rewrite aggregate_stats_swap.
  - by rewrite IH1, IH2.
Qed.

(** Folding onto an accumulator is merging the accumulator with the fold
    from [Stats()]. *)
Lemma foldl_aggregate_from (l : list Stats) (a : Stats) :
  Stats_wf a -> Forall Stats_wf l ->
  foldl aggregate_stats a l
  = aggregate_stats a (foldl aggregate_stats Stats_default l).
Proof.
  intros Ha Hl. revert a Ha.
  induction Hl as [|x l Hx Hl IH]; intros a Ha; simpl.
  - by rewrite aggregate_stats_default_r.
  - rewrite aggregate_stats_default_l by done.
    rewrite (IH (aggregate_stats a x)) by (by apply aggregate_stats_wf).
    rewrite (IH x) by done.
    by rewrite aggregate_stats_assoc.
Qed.

Lemma foldl_aggregate_chunks (chunks : list (list Stats)) (a : Stats) :
  Stats_wf a -> Forall (Forall Stats_wf) chunks ->
  foldl aggregate_stats a (map (foldl aggregate_stats Stats_default) chunks)
  = foldl aggregate_stats a (concat chunks).
Proof.
  intros Ha Hc. revert a Ha.
  induction Hc as [|chunk chunks Hchunk Hc IH]; intros a Ha; simpl; [done|].
  rewrite foldl_app.
  rewrite <- (foldl_aggregate_from chunk a) by done.
  apply IH. by apply foldl_aggregate_wf.
Qed.

Lemma Forall_concat_wf (chunks : list (list Stats)) (results : list Stats) :
  concat chunks ≡ₚ results -> Forall Stats_wf results ->
  Forall (Forall Stats_wf) chunks.
Proof.
  intros Hp Hr. rewrite <- Hp in Hr. clear Hp.
  induction chunks as [|chunk chunks IH]; simpl in *; [done|].
  apply Forall_app in Hr as [? ?]. constructor; [done|]. by apply IH.
Qed.

Lemma reduce_methods_sequential (chunks : list (list Stats)) (results : list Stats) :
  Forall Stats_wf results -> concat chunks ≡ₚ results ->
  reduce_methods aggregate_stats Stats_default chunks
  = foldl aggregate_stats Stats_default results.
Proof.
  intros Hr Hp. unfold reduce_methods.
  rewrite foldl_aggregate_chunks.
  - by apply foldl_aggregate_perm.
  - apply Stats_default_wf.
  - by apply (Forall_concat_wf chunks results).
Qed.

(** C4: [aggregate_stats] is associative and commutative on [Stats]
    values, [Stats()] is its identity on both sides, and therefore the
    totals that [reduce_methods] computes do not depend on how the
    per-method results are grouped and ordered: any assignment of the
    results to threads gives the fold of the results in scope order. *)
Theorem aggregate_stats_commutative_monoid (a b c : Stats) :
  Stats_wf a -> Stats_wf b ->
  aggregate_stats a (aggregate_stats b c)
  = aggregate_stats (aggregate_stats a b) c
  ∧ aggregate_stats a b = aggregate_stats b a
  ∧ aggregate_stats Stats_default a = a
  ∧ aggregate_stats a Stats_default = a
  ∧ (∀ (assignment : list (list Stats)) (results results' : list Stats),
       Forall Stats_wf results ->
       concat assignment ≡ₚ results ->
       results ≡ₚ results' ->
       reduce_methods aggregate_stats Stats_default assignment
       = foldl aggregate_stats Stats_default results').
Proof.
  intros Ha Hb. split; [apply aggregate_stats_assoc|].
  split; [by apply aggregate_stats_comm|].
  split; [by apply aggregate_stats_default_l|].
  split; [by apply aggregate_stats_default_r|].
  intros assignment results results' Hwf Hassign Hperm.
  rewrite (reduce_methods_sequential assignment results) by done.
  by apply foldl_aggregate_perm.
Qed.

(** ** The rewrite loop *)

Section DriverFacts.
Context `{Collaborators}.
Variable pass : Pass.
Variable ss : SharedState.
Variable m : DexMethod.

Lemma loop_body_eq (s : Stats) (st : WState) :
  loop_body pass ss m s st =
  if editable_cfg_built (code st) then
    let s' := aggregate_stats (incr_max_iterations s)
                (patch_result pass ss m (code st)).1.2 in
    if (patch_result pass ss m (code st)).1.1 then
      Ok (Continue s',
          {| code := turn_tail_code ss m (patch_result pass ss m (code st)).2;
             calls := calls st ++ turn_head_calls pass ++ turn_tail_calls ss |})
    else
      Ok (Return s',
          {| code := clear_cfg (patch_result pass ss m (code st)).2;
             calls := calls st ++ turn_head_calls pass |})
  else AssertFailed.
Proof.
  unfold loop_body, patch_result, turn_tail_code.
  unfold mbind, M_bind, query, always_assert, call_with, call, mret, M_ret.
  simpl.
  destruct (editable_cfg_built (code st)); [|done].
  destruct (cse_patch _ _ _ _ _ _ _) as [[any cs] c']; simpl.
  destruct any; simpl.
  - f_equal. f_equal. f_equal. by rewrite <- !app_assoc.
  - f_equal. f_equal. f_equal. by rewrite <- !app_assoc.
Qed.

Lemma rewrite_loop_S (fuel : nat) (s : Stats) (st : WState) :
  rewrite_loop pass ss m (S fuel) s st =
  match loop_body pass ss m s st with
  | Ok (Return s', st') => Ok (s', st')
  | Ok (Continue s', st') => rewrite_loop pass ss m fuel s' st'
  | AssertFailed => AssertFailed
  | OutOfFuel => OutOfFuel
  end.
Proof.
  simpl. unfold mbind at 1, M_bind at 1.
  destruct (loop_body pass ss m s st) as [[[s'|s'] st']| |]; done.
Qed.

(** A run that returns did so at the end of some turn within the fuel. *)
Lemma rewrite_loop_returns (fuel : nat) (s : Stats) (st : WState) s' st' :
  rewrite_loop pass ss m fuel s st = Ok (s', st') ->
  ∃ n, (n ≤ fuel)%nat ∧ loop_returns pass ss m n s st s' st'.
Proof.
  revert s st. induction fuel as [|fuel IH]; intros s st; [done|].
  rewrite rewrite_loop_S.
  destruct (loop_body pass ss m s st) as [[[s1|s1] st1]| |] eqn:E; try done.
  - intros Hr. destruct (IH _ _ Hr) as (n & Hn & Hl).
    exists (S n). split; [lia|]. by eapply loop_returns_next.
  - intros [= <- <-]. exists 1%nat. split; [lia|]. by apply loop_returns_last.
Qed.

(** A loop that returns at the end of its [n]-th turn does so under any
    fuel of at least [n], and is cut off under any smaller fuel. *)
Lemma loop_returns_fuel (n : nat) s st s' st' :
  loop_returns pass ss m n s st s' st' ->
  ∀ fuel,
    rewrite_loop pass ss m fuel s st
    = if decide (n ≤ fuel)%nat then Ok (s', st') else OutOfFuel.
Proof.
  induction 1 as [s st s' st' Hb|n s st s1 st1 s' st' Hb Hl IH]; intros fuel.
  - destruct fuel as [|fuel]; [done|].
    rewrite rewrite_loop_S, Hb. rewrite decide_True by lia. done.
  - destruct fuel as [|fuel].
    + rewrite decide_False by lia. done.
    + rewrite rewrite_loop_S, Hb, IH.
      destruct (decide (n ≤ fuel)%nat);
        [rewrite decide_True by lia|rewrite decide_False by lia]; done.
Qed.

(** The turn in which the loop returns is reached through turns that
    all went on. *)
Lemma loop_returns_enters (n : nat) s st s' st' :
  loop_returns pass ss m n s st s' st' ->
  ∃ s1 st1, loop_enters pass ss m s st s1 st1
            ∧ loop_body pass ss m s1 st1 = Ok (Return s', st').
Proof.
  induction 1 as [s st s' st' Hb|n s st s1 st1 s' st' Hb Hl IH].
  - exists s, st. split; [apply loop_enters_first|done].
  - destruct IH as (s2 & st2 & He & Hr).
    exists s2, st2. split; [by eapply loop_enters_next|done].
Qed.

(** A turn returns exactly when the engine reports no changes. *)
Lemma loop_body_return_iff (s : Stats) (st : WState) :
  editable_cfg_built (code st) = true ->
  (∃ s' st', loop_body pass ss m s st = Ok (Return s', st'))
  ↔ (patch_result pass ss m (code st)).1.1 = false.
Proof.
  intros Hb. rewrite loop_body_eq, Hb. simpl.
  destruct ((patch_result pass ss m (code st)).1.1); split.
  - by intros (s' & st' & ?).
  - done.
  - done.
  - intros _. eauto.
Qed.

(** C1 (amended): the rewrite loop has no iteration cap.  It returns
    exactly when some turn ends with the engine reporting no changes:
    a run returns under fuel [fuel] iff the loop returns at the end of
    its [n]-th turn for some [n] within the fuel; however large that [n]
    is, the loop is still running after fewer turns; and a turn is the
    last one exactly when the engine's [patch] reports no changes
    there. *)
Theorem rewrite_loop_returns_iff_no_changes
  (fuel : nat) (s : Stats) (st : WState) (s' : Stats) (st' : WState) :
  (rewrite_loop pass ss m fuel s st = Ok (s', st')
   ↔ ∃ n, (n ≤ fuel)%nat ∧ loop_returns pass ss m n s st s' st')
  ∧ (∀ n, loop_returns pass ss m n s st s' st' ->
       ∀ fuel', (fuel' < n)%nat ->
         rewrite_loop pass ss m fuel' s st = OutOfFuel)
  ∧ (∀ s1 st1, editable_cfg_built (code st1) = true ->
       (∃ s2 st2, loop_body pass ss m s1 st1 = Ok (Return s2, st2))
       ↔ (patch_result pass ss m (code st1)).1.1 = false).
Proof.
  split; [split|split].
  - apply rewrite_loop_returns.
  - intros (n & Hn & Hl). rewrite (loop_returns_fuel n s st s' st' Hl).
    by rewrite decide_True.
  - intros n Hl fuel' Hlt. rewrite (loop_returns_fuel n s st s' st' Hl).
    rewrite decide_False by lia. done.
  - intros s1 st1. apply loop_body_return_iff.
Qed.

(** ** The editable CFG around the loop *)

(** In a run that returns, the CFG is built at the top of every turn. *)
Lemma rewrite_loop_enters_built (fuel : nat) s st s' st' s1 st1 :
  rewrite_loop pass ss m fuel s st = Ok (s', st') ->
  loop_enters pass ss m s st s1 st1 ->
  editable_cfg_built (code st1) = true.
Proof.
  intros Hr He. revert fuel Hr.
  induction He as [s st|s st sa sta s1 st1 Hb He IH]; intros fuel Hr.
  - destruct fuel as [|fuel]; [done|].
    rewrite rewrite_loop_S, loop_body_eq in Hr.
    by destruct (editable_cfg_built (code st)).
  - destruct fuel as [|fuel]; [done|].
    rewrite rewrite_loop_S, Hb in Hr. by eapply IH.
Qed.

(** A run that returns ends with [clear_cfg]. *)
Lemma rewrite_loop_ends_cleared (fuel : nat) s st s' st' :
  rewrite_loop pass ss m fuel s st = Ok (s', st') ->
  (∃ c, code st' = clear_cfg c) ∧ last (calls st') = Some EvClearCfg.
Proof.
  intros Hr. apply rewrite_loop_returns in Hr as (n & _ & Hl).
  apply loop_returns_enters in Hl as (s1 & st1 & _ & Hb).
  rewrite loop_body_eq in Hb.
  destruct (editable_cfg_built (code st1)); [|done]. simpl in Hb.
  destruct ((patch_result pass ss m (code st1)).1.1); [done|].
  injection Hb as _ <-. simpl. split; [eauto|].
  unfold turn_head_calls. rewrite (cons_middle _ (calls st1)), app_assoc.
  apply last_snoc.
Qed.

(** C10: a worker that returns on a method with code leaves the editable
    CFG cleared, [clear_cfg] being the last call it made, whether it
    skipped the method or ran the loop; in the run of the loop the
    editable CFG was built at the top of every turn; and a turn entered
    without it dies in [always_assert] before anything else is called. *)
Theorem worker_returns_with_cfg_cleared `{!CfgProviderLaws}
  (fuel : nat) (c : IRCode) (s : Stats) (m' : DexMethod) (log : list Event) :
  get_code m = Some c ->
  process_method pass ss m fuel = Ok (s, m', log) ->
  (∃ c', get_code m' = Some c' ∧ editable_cfg_built c' = false)
  ∧ last log = Some EvClearCfg
  ∧ (no_optimizations m = false ->
     ∀ s1 st1,
       loop_enters pass ss m Stats_default {| code := c; calls := [] |} s1 st1 ->
       editable_cfg_built (code st1) = true)
  ∧ (∀ s1 st1,
       editable_cfg_built (code st1) = false ->
       loop_body pass ss m s1 st1 = AssertFailed).
Proof.
  intros Hc Hp.
  assert (∀ s1 st1, editable_cfg_built (code st1) = false ->
                    loop_body pass ss m s1 st1 = AssertFailed) as Hguard.
  { intros s1 st1 Hb. by rewrite loop_body_eq, Hb. }
  revert Hp. unfold process_method, process_code. rewrite Hc.
  destruct (no_optimizations m) eqn:Hno.
  - intros [= <- <- <-]. simpl. split; [|split; [done|split; [done|done]]].
    eexists. split; [done|]. apply built_after_clear.
  - unfold mbind at 1, Res_bind.
    destruct (rewrite_loop _ _ _ _ _ _) as [[s2 st2]| |] eqn:Hr; try done.
    intros [= <- <- <-].
    destruct (rewrite_loop_ends_cleared _ _ _ _ _ Hr) as [[c' Hc'] Hlast].
    split; [|split; [done|split; [|done]]].
    + eexists. split; [done|]. rewrite Hc'. apply built_after_clear.
    + intros _ s1 st1 He. by eapply rewrite_loop_enters_built.
Qed.

(** With a DCE that keeps the editable CFG it is given, the assertion at
    the top of the turn never fires. *)
Lemma rewrite_loop_never_aborts `{!CfgProviderLaws} (fuel : nat) s st :
  (∀ pure c, editable_cfg_built c = true ->
             editable_cfg_built (local_dce pure c) = true) ->
  editable_cfg_built (code st) = true ->
  rewrite_loop pass ss m fuel s st ≠ AssertFailed.
Proof.
  intros Hdce. revert s st. induction fuel as [|fuel IH]; intros s st Hb; [done|].
  rewrite rewrite_loop_S, loop_body_eq, Hb. simpl.
  destruct ((patch_result pass ss m (code st)).1.1); [|done].
  apply IH. simpl. unfold turn_tail_code. apply Hdce, built_after_build.
Qed.

(** ** Methods the worker does not rewrite *)

(** C2: a method without code is returned as it is, under any fuel and
    without any call on its code; the build phase leaves it alone too;
    and the [Stats()] it yields adds nothing to any total it is merged
    into. *)
Theorem method_without_code_untouched (fuel : nat) (scope scope' : list DexMethod) :
  get_code m = None ->
  process_method pass ss m fuel = Ok (Stats_default, m, [])
  ∧ build_all_cfgs (scope ++ m :: scope')
    = build_all_cfgs scope ++ m :: build_all_cfgs scope'
  ∧ (∀ total, Stats_wf total ->
       aggregate_stats total Stats_default = total
       ∧ aggregate_stats Stats_default total = total).
Proof.
  intros Hc. split; [|split].
  - unfold process_method. by rewrite Hc.
  - unfold build_all_cfgs. rewrite map_app. simpl. by rewrite Hc.
  - intros total Hwf. split.
    + by apply aggregate_stats_default_r.
    + by apply aggregate_stats_default_l.
Qed.

(** C3: on a method marked [no_optimizations] the worker, under any
    fuel, makes the single call [clear_cfg] and returns [Stats()]: the
    editable CFG is released, the instructions are those the method came
    with, and the statistics add nothing to any total. *)
Theorem no_optimizations_method_skipped `{!CfgProviderLaws}
  (fuel : nat) (c : IRCode) :
  get_code m = Some c ->
  no_optimizations m = true ->
  process_method pass ss m fuel
  = Ok (Stats_default, set_code m (Some (clear_cfg c)), [EvClearCfg])
  ∧ editable_cfg_built (clear_cfg c) = false
  ∧ instructions (clear_cfg c) = instructions c
  ∧ (∀ total, Stats_wf total ->
       aggregate_stats total Stats_default = total
       ∧ aggregate_stats Stats_default total = total).
Proof.
  intros Hc Hno. split; [|split; [|split]].
  - unfold process_method, process_code. by rewrite Hc, Hno.
  - apply built_after_clear.
  - apply instructions_clear.
  - intros total Hwf. split.
    + by apply aggregate_stats_default_r.
    + by apply aggregate_stats_default_l.
Qed.

(** ** The shared state *)

Lemma insert_range_union (s new : gset DexMethodRef) :
  insert_range s new = s ∪ new.
Proof.
  unfold insert_range.
  apply (set_fold_ind_L (λ r X, r = s ∪ X)).
  - by rewrite (right_id_L ∅ (∪)).
  - intros x X r Hx ->.
    by rewrite (assoc_L (∪)), (comm_L (∪) {[x]} s), <- (assoc_L (∪)).
Qed.

(** C5: the set handed to the constructor of [SharedState] is the union
    of the built-in pure methods and the configured ones, and the
    fixed point [init_scope] is run on the state constructed from that
    merged set. *)
Theorem pure_methods_is_union (conf : ConfigFiles) (scope : list DexMethod) :
  pure_methods conf = get_pure_methods ∪ conf_get_pure_methods conf
  ∧ (∀ x, x ∈ pure_methods conf
          ↔ x ∈ get_pure_methods ∨ x ∈ conf_get_pure_methods conf)
  ∧ make_shared_state conf scope
    = init_scope
        (SharedState_new (get_pure_methods ∪ conf_get_pure_methods conf))
        scope.
Proof.
  assert (pure_methods conf = get_pure_methods ∪ conf_get_pure_methods conf)
    as Hu by apply insert_range_union.
  split; [done|]. split.
  - intros x. rewrite Hu. apply elem_of_union.
  - unfold make_shared_state. by rewrite Hu.
Qed.

(** ** Parallelism *)

(** C8: with ["debug"] bound to [true] in the pass configuration the
    reduction over the methods is asked for exactly one thread; with it
    bound to [false], or unbound, for the default number of threads. *)
Theorem debug_forces_single_thread (json : gmap string bool) :
  reduce_num_threads (bind_config json)
  = match json !! "debug" with
    | Some true => 1
    | Some false | None => default_num_threads
    end.
Proof.
  unfold reduce_num_threads, bind_config, bind. simpl.
  by destruct (json !! "debug") as [[|]|].
Qed.

(** ** Calls of copy propagation *)

Lemma copy_prop_config_off : interfering_features_off copy_prop_config.
Proof. by repeat split. Qed.

Lemma loop_body_calls_ok (s : Stats) (st : WState) (step : LoopStep) (st' : WState) :
  loop_body pass ss m s st = Ok (step, st') ->
  copy_propagation_calls_ok (calls st) ->
  copy_propagation_calls_ok (calls st').
Proof.
  rewrite loop_body_eq. unfold copy_propagation_calls_ok.
  destruct (editable_cfg_built (code st)); [|done]. simpl.
  destruct ((patch_result pass ss m (code st)).1.1);
    intros [= _ <-] Hok; simpl; rewrite !Forall_app; repeat split; try done;
    repeat (constructor; try done); apply copy_prop_config_off.
Qed.

Lemma loop_enters_calls_ok s st s1 st1 :
  loop_enters pass ss m s st s1 st1 ->
  copy_propagation_calls_ok (calls st) ->
  copy_propagation_calls_ok (calls st1).
Proof.
  induction 1 as [|s st sa sta s1 st1 Hb He IH]; [done|].
  intros Hok. apply IH. by eapply loop_body_calls_ok.
Qed.

Lemma process_method_calls_ok (fuel : nat) s m' log :
  process_method pass ss m fuel = Ok (s, m', log) ->
  copy_propagation_calls_ok log.
Proof.
  unfold process_method, process_code.
  destruct (get_code m) as [c|]; [|by intros [= _ _ <-]; constructor].
  destruct (no_optimizations m).
  - intros [= _ _ <-]. by repeat constructor.
  - unfold mbind at 1, Res_bind.
    destruct (rewrite_loop _ _ _ _ _ _) as [[s2 st2]| |] eqn:Hr; try done.
    intros [= _ _ <-].
    apply rewrite_loop_returns in Hr as (n & _ & Hl).
    apply loop_returns_enters in Hl as (s1 & st1 & He & Hb).
    eapply loop_body_calls_ok; [done|].
    eapply loop_enters_calls_ok; [done|]. constructor.
Qed.

End DriverFacts.

(** ** The whole pass *)

Lemma mapM_Res_Forall2 {A B} (f : A -> Res B) (l : list A) (rs : list B) :
  mapM f l = Ok rs -> Forall2 (λ x r, f x = Ok r) l rs.
Proof.
  revert rs. induction l as [|x l IH]; intros rs; simpl.
  - intros [= <-]. constructor.
  - unfold mbind at 1, Res_bind. destruct (f x) as [r| |] eqn:E; try done.
    unfold mbind at 1, Res_bind. destruct (mapM f l) as [rs'| |]; try done.
    intros [= <-]. constructor; [done|]. by apply IH.
Qed.

Section PassFacts.
Context `{Collaborators}.

(** What [run_pass] returns, in terms of the workers' results. *)
Lemma run_pass_Ok (fuel : nat) (pass : Pass) (conf : ConfigFiles)
  (scope : list DexMethod) (res : PassResult) :
  run_pass fuel pass conf scope = Ok res ->
  ∃ results,
    Forall2 (λ method r,
               process_method pass
                 (make_shared_state conf (build_all_cfgs scope)) method fuel
               = Ok r)
            (build_all_cfgs scope) results
    ∧ res = {| methods := results.*1.*2;
               worker_calls := results.*2;
               metrics :=
                 report_metrics
                   (reduce_methods aggregate_stats Stats_default
                      (work_assignment (reduce_num_threads pass)
                                       (results.*1.*1)))
                   (shared_get_stats
                      (make_shared_state conf (build_all_cfgs scope))) [] |}.
Proof.
  unfold run_pass. intros Hr.
  unfold mbind at 1, Res_bind in Hr.
  destruct (mapM _ _) as [results| |] eqn:E; try done.
  injection Hr as <-. exists results. split; [|done].
  by apply mapM_Res_Forall2.
Qed.

(** C6: the configuration handed to copy propagation has const-class
    elimination, const-string elimination and static-final propagation
    off, and every call of copy propagation that a worker makes carries
    it: in the log of each worker of a pass that completes, and in the
    log at the top of every turn of any worker's loop, complete or not. *)
Theorem copy_propagation_features_off (fuel : nat) (pass : Pass)
  (conf : ConfigFiles) (scope : list DexMethod) (res : PassResult) :
  run_pass fuel pass conf scope = Ok res ->
  interfering_features_off copy_prop_config
  ∧ Forall copy_propagation_calls_ok (worker_calls res)
  ∧ (∀ ss m c s1 st1,
       loop_enters pass ss m Stats_default {| code := c; calls := [] |} s1 st1 ->
       copy_propagation_calls_ok (calls st1)).
Proof.
  intros Hr. split; [apply copy_prop_config_off|]. split.
  - apply run_pass_Ok in Hr as (results & Hres & ->). simpl.
    induction Hres as [|method [[s m'] log] scope' results Hm Hres IH]; simpl.
    + constructor.
    + constructor; [|done]. by eapply process_method_calls_ok.
  - intros ss m c s1 st1 He.
    eapply loop_enters_calls_ok; [done|]. constructor.
Qed.

(** ** The iteration counter *)

(** Each turn adds one to [max_iterations] when the engine leaves the
    counter alone. *)
Lemma loop_body_max_iterations pass ss m s st step st' :
  engine_counts_no_iterations ->
  loop_body pass ss m s st = Ok (step, st') ->
  max_iterations (match step with Continue s' | Return s' => s' end)
  = SizeT.wrap (max_iterations s + 1).
Proof.
  intros Hzero. rewrite loop_body_eq.
  destruct (editable_cfg_built (code st)); [|done]. simpl.
  assert (Z.max (SizeT.incr (max_iterations s))
                (max_iterations (patch_result pass ss m (code st)).1.2)
          = SizeT.wrap (max_iterations s + 1)) as Hmax.
  { unfold patch_result. rewrite Hzero.
    pose proof (SizeT_wrap_in_range (max_iterations s + 1)) as Hr.
    unfold SizeT.incr, SizeT.add, SizeT.in_range in *. lia. }
  destruct ((patch_result pass ss m (code st)).1.1); intros [= <- _]; done.
Qed.

Lemma loop_returns_max_iterations pass ss m n s st s' st' :
  engine_counts_no_iterations ->
  loop_returns pass ss m n s st s' st' ->
  max_iterations s' = SizeT.wrap (max_iterations s + Z.of_nat n).
Proof.
  intros Hzero.
  induction 1 as [s st s' st' Hb|n s st s1 st1 s' st' Hb Hl IH].
  - by apply (loop_body_max_iterations _ _ _ _ _ _ _ Hzero) in Hb.
  - apply (loop_body_max_iterations _ _ _ _ _ _ _ Hzero) in Hb. simpl in Hb.
    rewrite IH, Hb. size_t_ring.
Qed.

(** The worker's [max_iterations] is the number of turns it took. *)
Lemma process_method_max_iterations pass ss m fuel s m' log :
  engine_counts_no_iterations ->
  Z.of_nat fuel < SizeT.modulus ->
  process_method pass ss m fuel = Ok (s, m', log) ->
  ∃ n, method_iterations pass ss m n ∧ max_iterations s = Z.of_nat n.
Proof.
  intros Hzero Hfuel. unfold process_method, process_code.
  destruct (get_code m) as [c|] eqn:Hc.
  - destruct (no_optimizations m) eqn:Hno.
    + intros [= <- _ _]. exists 0%nat.
      split; [by eapply method_iterations_no_optimizations|done].
    + unfold mbind at 1, Res_bind.
      destruct (rewrite_loop _ _ _ _ _ _) as [[s2 st2]| |] eqn:Hr; try done.
      intros [= <- _ _].
      apply rewrite_loop_returns in Hr as (n & Hn & Hl).
      exists n. split; [by eapply method_iterations_loop|].
      rewrite (loop_returns_max_iterations _ _ _ _ _ _ _ _ Hzero Hl). simpl.
      apply SizeT_wrap_small. unfold SizeT.in_range. lia.
  - intros [= <- _ _]. exists 0%nat.
    split; [by apply method_iterations_no_code|done].
Qed.

(** The merged [max_iterations] is the largest of the merged ones. *)
Lemma max_iterations_foldl (l : list Stats) (a : Stats) :
  0 <= max_iterations a ->
  max_iterations (foldl aggregate_stats a l)
  = Z.max (max_iterations a) (foldr Z.max 0 (max_iterations <$> l)).
Proof.
  revert a. induction l as [|x l IH]; intros a Ha; csimpl; [lia|].
  rewrite IH by (simpl; lia). simpl. lia.
Qed.

Lemma foldr_Zmax_nonneg (l : list Z) : 0 <= foldr Z.max 0 l.
Proof. induction l; simpl; lia. Qed.

Lemma foldr_Zmax_app (l k : list Z) :
  foldr Z.max 0 (l ++ k) = Z.max (foldr Z.max 0 l) (foldr Z.max 0 k).
Proof.
  induction l as [|x l IH]; simpl.
  - pose proof (foldr_Zmax_nonneg k). lia.
  - rewrite IH. lia.
Qed.

Lemma foldr_Zmax_perm (l k : list Z) :
  l ≡ₚ k -> foldr Z.max 0 l = foldr Z.max 0 k.
Proof. induction 1; simpl; lia. Qed.

Lemma foldr_Zmax_of_nat (ns : list nat) :
  foldr Z.max 0 (Z.of_nat <$> ns) = Z.of_nat (max_list ns).
Proof. induction ns as [|n ns IH]; csimpl; [done|]. rewrite IH. lia. Qed.

Lemma max_iterations_reduce_methods (chunks : list (list Stats)) :
  max_iterations (reduce_methods aggregate_stats Stats_default chunks)
  = foldr Z.max 0 (max_iterations <$> concat chunks).
Proof.
  unfold reduce_methods. rewrite max_iterations_foldl by done. simpl.
  rewrite Z.max_r by apply foldr_Zmax_nonneg.
  induction chunks as [|chunk chunks IH]; csimpl; [done|].
  rewrite fmap_app, foldr_Zmax_app, IH.
  rewrite max_iterations_foldl by done. simpl.
  pose proof (foldr_Zmax_nonneg (max_iterations <$> chunk)). lia.
Qed.

Lemma last_report_metrics (stats : Stats) (sss : SharedStateStats) mgr :
  last (report_metrics stats sss mgr)
  = Some ("num_max_iterations", max_iterations stats).
Proof. unfold report_metrics, incr_metric at 1. apply last_snoc. Qed.

Lemma workers_iterations pass ss fuel (scope : list DexMethod)
  (results : list (Stats * DexMethod * list Event)) :
  engine_counts_no_iterations ->
  Z.of_nat fuel < SizeT.modulus ->
  Forall2 (λ method r, process_method pass ss method fuel = Ok r)
          scope results ->
  ∃ iterations,
    Forall2 (method_iterations pass ss) scope iterations
    ∧ max_iterations <$> results.*1.*1 = Z.of_nat <$> iterations.
Proof.
  intros Hzero Hfuel.
  induction 1 as [|method [[s m'] log] scope results Hm Hres IH].
  - exists []. split; constructor.
  - destruct IH as (iterations & Hit & Heq).
    destruct (process_method_max_iterations _ _ _ _ _ _ _ Hzero Hfuel Hm)
      as (n & Hn & Hmax).
    exists (n :: iterations). split; [by constructor|].
    csimpl. by rewrite Hmax, Heq.
Qed.

(** C9: [aggregate_stats] takes the maximum of [max_iterations] and of
    [max_value_ids] and adds every other counter, the per-opcode counts
    key by key with an absent key counting as zero.  So, when the engine
    leaves [max_iterations] alone and the scheduler loses no result, the
    ["num_max_iterations"] that a completed pass reports is the largest
    number of turns that any worker's loop took, not their sum. *)
Theorem max_iterations_metric_is_maximum (a b : Stats)
  (fuel : nat) (pass : Pass) (conf : ConfigFiles) (scope : list DexMethod)
  (res : PassResult) :
  engine_counts_no_iterations ->
  assignment_complete ->
  Z.of_nat fuel < SizeT.modulus ->
  run_pass fuel pass conf scope = Ok res ->
  (max_iterations (aggregate_stats a b)
     = Z.max (max_iterations a) (max_iterations b)
   ∧ max_value_ids (aggregate_stats a b)
     = Z.max (max_value_ids a) (max_value_ids b)
   ∧ results_captured (aggregate_stats a b)
     = SizeT.add (results_captured a) (results_captured b)
   ∧ stores_captured (aggregate_stats a b)
     = SizeT.add (stores_captured a) (stores_captured b)
   ∧ array_lengths_captured (aggregate_stats a b)
     = SizeT.add (array_lengths_captured a) (array_lengths_captured b)
   ∧ instructions_eliminated (aggregate_stats a b)
     = SizeT.add (instructions_eliminated a) (instructions_eliminated b)
   ∧ methods_using_other_tracked_location_bit (aggregate_stats a b)
     = SizeT.add (methods_using_other_tracked_location_bit a)
                 (methods_using_other_tracked_location_bit b)
   ∧ skipped_due_to_too_many_registers (aggregate_stats a b)
     = SizeT.add (skipped_due_to_too_many_registers a)
                 (skipped_due_to_too_many_registers b)
   ∧ (∀ k, eliminated_opcodes (aggregate_stats a b) !! k
           = match eliminated_opcodes b !! k with
             | Some v =>
                 Some (SizeT.add (default 0 (eliminated_opcodes a !! k)) v)
             | None => eliminated_opcodes a !! k
             end))
  ∧ ∃ iterations : list nat,
      Forall2 (method_iterations pass
                 (make_shared_state conf (build_all_cfgs scope)))
              (build_all_cfgs scope) iterations
      ∧ last (metrics res)
        = Some ("num_max_iterations", Z.of_nat (max_list iterations)).
Proof.
  intros Hzero Hassign Hfuel Hr. split.
  { repeat split. intros k. simpl. apply lookup_merge_opcodes. }
  apply run_pass_Ok in Hr as (results & Hres & ->). simpl.
  rewrite last_report_metrics, max_iterations_reduce_methods.
  rewrite (foldr_Zmax_perm _ (max_iterations <$> results.*1.*1)).
  2:{ f_equiv. apply Hassign. }
  destruct (workers_iterations _ _ _ _ _ Hzero Hfuel Hres)
    as (iterations & Hit & ->).
  exists iterations. split; [done|]. by rewrite foldr_Zmax_of_nat.
Qed.

End PassFacts.

(** ** The driver on the small collaborators *)

Lemma Toy_cfg_laws : @CfgProviderLaws Toy.cfg.
Proof. by split. Defined.

Lemma Toy_one_eliminated_wf : Stats_wf Toy.one_eliminated.
Proof.
  split; simpl; try (unfold SizeT.in_range, SizeT.modulus; lia).
  apply map_Forall_singleton. unfold SizeT.in_range, SizeT.modulus. lia.
Defined.

Lemma Toy_engine_counts_no_iterations (converging : bool) :
  @engine_counts_no_iterations Toy.cfg (Toy.collaborators converging).
Proof.
  intros ss' st cls args regs ra [n b]. simpl. unfold Toy.patch.
  destruct converging; [|done]. by destruct n.
Defined.

Lemma Toy_assignment_complete (converging : bool) :
  @assignment_complete Toy.cfg (Toy.collaborators converging).
Proof. intros n l. simpl. by rewrite app_nil_r. Defined.

(** With the engine that reports a change on every turn, every turn of
    the loop goes on. *)
Lemma Toy_changing_loop_runs_on (fuel : nat) (s : Stats) (st : @WState Toy.cfg) :
  editable_cfg_built (code st) = true ->
  @rewrite_loop Toy.cfg (Toy.collaborators false) Toy.pass ∅
    (Toy.method 0 false) fuel s st = OutOfFuel.
Proof.
  revert s st. induction fuel as [|fuel IH]; intros s st Hb; [done|].
  rewrite rewrite_loop_S, loop_body_eq, Hb. simpl. by apply IH.
Qed.

(** C1, as stated, fails: with an engine that reports a change on every
    turn the worker has not returned after a thousand turns, and does
    not return under any fuel; no count of turns stops the loop. *)
Lemma rewrite_loop_has_no_iteration_cap :
  @process_method Toy.cfg (Toy.collaborators false) Toy.pass ∅
    (Toy.method 0 false) 1000 = OutOfFuel
  ∧ ¬ ∃ fuel,
        @process_method Toy.cfg (Toy.collaborators false) Toy.pass ∅
          (Toy.method 0 false) fuel ≠ OutOfFuel.
Proof.
  assert (∀ fuel,
            @process_method Toy.cfg (Toy.collaborators false) Toy.pass ∅
              (Toy.method 0 false) fuel = OutOfFuel) as Hall.
  { intros fuel. unfold process_method, process_code. simpl.
    by rewrite Toy_changing_loop_runs_on. }
  split; [apply Hall|]. intros [fuel Hfuel]. by apply Hfuel.
Qed.

(** The converging engine on a method with two redundant instructions:
    the loop returns at the end of its third turn, and not before. *)
Lemma rewrite_loop_returns_iff_no_changes_witness :
  (∃ s' st',
     @rewrite_loop Toy.cfg (Toy.collaborators true) Toy.pass ∅
       (Toy.method 2 false) 3 Stats_default (Toy.entry 2)
     = Ok (s', st')
     ∧ max_iterations s' = 3
     ∧ @rewrite_loop Toy.cfg (Toy.collaborators true) Toy.pass ∅
         (Toy.method 2 false) 2 Stats_default (Toy.entry 2)
       = OutOfFuel).
Proof.
  destruct (@rewrite_loop Toy.cfg (Toy.collaborators true) Toy.pass ∅
              (Toy.method 2 false) 3 Stats_default (Toy.entry 2))
    as [[s' st']| |] eqn:E; [|by vm_compute in E|by vm_compute in E].
  exists s', st'. split; [done|]. split.
  - vm_compute in E. by injection E as <- <-.
  - destruct (@rewrite_loop_returns_iff_no_changes Toy.cfg
                (Toy.collaborators true) Toy.pass ∅ (Toy.method 2 false)
                3 Stats_default (Toy.entry 2) s' st') as [[Hret _] [Hcut _]].
    destruct (Hret E) as (n & Hn & Hl).
    destruct (decide (n ≤ 2)%nat) as [Hle|Hgt].
    + pose proof (loop_returns_fuel _ _ _ n _ _ _ _ Hl 2%nat) as H2.
      rewrite decide_True in H2 by done. by vm_compute in H2.
    + apply (Hcut n Hl). lia.
Defined.

(** The merge laws at the statistics of one elimination. *)
Lemma aggregate_stats_commutative_monoid_witness :
  Stats_wf Toy.one_eliminated
  ∧ aggregate_stats Toy.one_eliminated
      (aggregate_stats Stats_default Toy.one_eliminated)
    = aggregate_stats (aggregate_stats Toy.one_eliminated Stats_default)
        Toy.one_eliminated
  ∧ aggregate_stats Stats_default Toy.one_eliminated = Toy.one_eliminated
  ∧ reduce_methods aggregate_stats Stats_default
      [[Toy.one_eliminated]; []; [Stats_default; Toy.one_eliminated]]
    = foldl aggregate_stats Stats_default
        [Toy.one_eliminated; Toy.one_eliminated; Stats_default].
Proof.
  pose proof Toy_one_eliminated_wf as Hwf.
  pose proof Stats_default_wf as Hwf0.
  destruct (aggregate_stats_commutative_monoid
              Toy.one_eliminated Stats_default Toy.one_eliminated Hwf Hwf0)
    as (Hassoc & _ & Hid & _ & Hred).
  split; [done|]. split; [done|]. split; [done|].
  apply (Hred _ [Toy.one_eliminated; Stats_default; Toy.one_eliminated]).
  - repeat first [apply Forall_nil_2 | apply Forall_cons_2]; assumption.
  - done.
  - apply Permutation_skip, Permutation_swap.
Defined.

(** A method without code comes back as it went in. *)
Lemma method_without_code_untouched_witness :
  get_code Toy.abstract_method = None
  ∧ @process_method Toy.cfg (Toy.collaborators true) Toy.pass ∅
      Toy.abstract_method 0
    = Ok (Stats_default, Toy.abstract_method, []).
Proof.
  split; [reflexivity|].
  apply (@method_without_code_untouched Toy.cfg (Toy.collaborators true)
           Toy.pass ∅ Toy.abstract_method 0 [] []).
  reflexivity.
Defined.

(** A method marked [no_optimizations] only has its CFG cleared. *)
Lemma no_optimizations_method_skipped_witness :
  no_optimizations (Toy.method 4 true) = true
  ∧ @process_method Toy.cfg (Toy.collaborators true) Toy.pass ∅
      (Toy.method 4 true) 0
    = Ok (Stats_default,
          set_code (Toy.method 4 true) (Some (4%nat, false)), [EvClearCfg]).
Proof.
  split; [reflexivity|].
  apply (@no_optimizations_method_skipped Toy.cfg (Toy.collaborators true)
           Toy.pass ∅ (Toy.method 4 true) Toy_cfg_laws 0 (4%nat, true));
    reflexivity.
Defined.

(** The worker on a method with two redundant instructions returns with
    the CFG cleared. *)
Lemma worker_returns_with_cfg_cleared_witness :
  ∃ s m' log,
    @process_method Toy.cfg (Toy.collaborators true) Toy.pass ∅
      (Toy.method 2 false) 5 = Ok (s, m', log)
    ∧ last log = Some EvClearCfg
    ∧ ∃ c', get_code m' = Some c' ∧ editable_cfg_built c' = false.
Proof.
  destruct (@process_method Toy.cfg (Toy.collaborators true) Toy.pass ∅
              (Toy.method 2 false) 5)
    as [[[s m'] log]| |] eqn:E; [|by vm_compute in E|by vm_compute in E].
  exists s, m', log. split; [done|].
  destruct (@worker_returns_with_cfg_cleared Toy.cfg (Toy.collaborators true)
              Toy.pass ∅ (Toy.method 2 false) Toy_cfg_laws 5 (2%nat, true)
              s m' log eq_refl E) as (Hc & Hlast & _ & _).
  by split.
Defined.

(** A pass over four methods, one without code and one not to be
    optimised. *)
Lemma copy_propagation_features_off_witness :
  ∃ res,
    @run_pass Toy.cfg (Toy.collaborators true) 5 Toy.pass Toy.conf
      [Toy.method 2 false; Toy.abstract_method; Toy.method 1 false;
       Toy.method 4 true] = Ok res
    ∧ Forall copy_propagation_calls_ok (worker_calls res)
    ∧ EvCopyPropagation (mkConfig false false false 3000)
      ∈ concat (worker_calls res).
Proof.
  destruct (@run_pass Toy.cfg (Toy.collaborators true) 5 Toy.pass Toy.conf
              [Toy.method 2 false; Toy.abstract_method; Toy.method 1 false;
               Toy.method 4 true])
    as [res| |] eqn:E; [|by vm_compute in E|by vm_compute in E].
  exists res. split; [done|]. split.
  - by destruct (@copy_propagation_features_off Toy.cfg
                   (Toy.collaborators true) 5 Toy.pass Toy.conf _ res E)
      as (_ & Hcalls & _).
  - vm_compute in E. injection E as <-. simpl.
    do 2 apply list_elem_of_further. apply list_elem_of_here.
Defined.

(** The same pass reports 3 for ["num_max_iterations"]: its workers
    took 3, 0, 2 and 0 turns. *)
Lemma max_iterations_metric_is_maximum_witness :
  ∃ res,
    @run_pass Toy.cfg (Toy.collaborators true) 5 Toy.pass Toy.conf
      [Toy.method 2 false; Toy.abstract_method; Toy.method 1 false;
       Toy.method 4 true] = Ok res
    ∧ last (metrics res) = Some ("num_max_iterations", 3)
    ∧ ∃ iterations : list nat,
        last (metrics res)
        = Some ("num_max_iterations", Z.of_nat (max_list iterations)).
Proof.
  destruct (@run_pass Toy.cfg (Toy.collaborators true) 5 Toy.pass Toy.conf
              [Toy.method 2 false; Toy.abstract_method; Toy.method 1 false;
               Toy.method 4 true])
    as [res| |] eqn:E; [|by vm_compute in E|by vm_compute in E].
  exists res. split; [done|]. split.
  - vm_compute in E. by injection E as <-.
  - destruct (@max_iterations_metric_is_maximum Toy.cfg
                (Toy.collaborators true) Stats_default Stats_default
                5 Toy.pass Toy.conf _ res
                (Toy_engine_counts_no_iterations true)
                (Toy_assignment_complete true) eq_refl E)
      as (_ & iterations & _ & Hlast).
    by exists iterations.
Defined.

(** * Further facts about the driver *)

Section WorkerFacts.
Context `{Collaborators}.
Variable pass : Pass.
Variable ss : SharedState.
Variable m : DexMethod.

(** ** The statistics of a worker fit [Stats] *)





(** ** The calls of a worker *)

Lemma loop_returns_pos (n : nat) s st s' st' :
  loop_returns pass ss m n s st s' st' -> (0 < n)%nat.
Proof. destruct 1; lia. Qed.

Lemma loop_returns_calls (n : nat) s st s' st' :
  loop_returns pass ss m n s st s' st' ->
  calls st' = calls st ++ loop_calls pass ss n.
Proof.
  unfold loop_calls.
  induction 1 as [s st s' st' Hb|n s st s1 st1 s' st' Hb Hl IH].
  - rewrite loop_body_eq in Hb.
    destruct (editable_cfg_built (code st)); [|done]. simpl in Hb.
    destruct ((patch_result pass ss m (code st)).1.1); [done|].
    by injection Hb as _ <-.
  - rewrite loop_body_eq in Hb.
    destruct (editable_cfg_built (code st)); [|done]. simpl in Hb.
    destruct ((patch_result pass ss m (code st)).1.1); [|done].
    injection Hb as _ <-. rewrite IH. simpl calls.
    pose proof (loop_returns_pos _ _ _ _ _ Hl) as Hpos.
    replace (S n - 1)%nat with (S (n - 1)) by lia.
    simpl replicate. simpl mjoin. by rewrite <- !app_assoc.
Qed.

Lemma length_loop_calls (n : nat) :
  (0 < n)%nat -> length (loop_calls pass ss n) = (5 * n - 3)%nat.
Proof.
  intros Hn. unfold loop_calls. rewrite length_app.
  assert (∀ (x : list Event) k,
            length (mjoin (replicate k x)) = (k * length x)%nat) as Hk.
  { intros x. induction k as [|k IH]; [done|].
    rewrite replicate_S. csimpl. rewrite length_app, IH. lia. }
  rewrite Hk. simpl. lia.
Qed.

(** X1: a worker that runs the loop and returns after [n] turns has
    made exactly the calls of [n - 1] full turns (patch, clear, copy
    propagation with the driver's configuration, build, DCE with the
    shared state's pure methods) followed by a last patch and clear:
    [n] calls of the engine, [n - 1] of copy propagation and of DCE,
    [5 n - 3] calls in all, and nothing else. *)
Theorem worker_call_sequence (fuel : nat) (c : IRCode) (s : Stats)
  (m' : DexMethod) (log : list Event) :
  get_code m = Some c ->
  no_optimizations m = false ->
  process_method pass ss m fuel = Ok (s, m', log) ->
  ∃ n, (1 ≤ n ≤ fuel)%nat
       ∧ method_iterations pass ss m n
       ∧ log = loop_calls pass ss n
       ∧ length log = (5 * n - 3)%nat.
Proof.
  intros Hc Hno. unfold process_method, process_code. rewrite Hc, Hno.
  unfold mbind at 1, Res_bind.
  destruct (rewrite_loop _ _ _ _ _ _) as [[s2 st2]| |] eqn:Hr; try done.
  intros [= <- <- <-].
  apply rewrite_loop_returns in Hr as (n & Hn & Hl).
  pose proof (loop_returns_pos _ _ _ _ _ Hl) as Hpos.
  pose proof (loop_returns_calls _ _ _ _ _ Hl) as Hcalls. simpl in Hcalls.
  exists n. split; [lia|]. split; [by eapply method_iterations_loop|].
  split; [done|]. rewrite Hcalls. by apply length_loop_calls.
Qed.

(** ** Termination under a measure *)


Lemma process_method_not_aborted `{!CfgProviderLaws} (fuel : nat) :
  dce_keeps_cfg ->
  (∀ c, get_code m = Some c -> editable_cfg_built c = true) ->
  process_method pass ss m fuel ≠ AssertFailed.
Proof.
  intros Hdce Hbuilt. unfold process_method, process_code.
  destruct (get_code m) as [c|] eqn:Hc; [|done].
  destruct (no_optimizations m); [done|].
  unfold mbind at 1, Res_bind.
  destruct (rewrite_loop _ _ _ _ _ _) as [[s2 st2]| |] eqn:Hr; try done.
  intros _. eapply (rewrite_loop_never_aborts pass ss m); [exact Hdce| |exact Hr].
  simpl. by apply Hbuilt.
Qed.

(** ** What the worker leaves of the method *)


End WorkerFacts.

(** ** Running the workers over a scope *)

Lemma mapM_Res_Ok {A B} (f : A -> Res B) (l : list A) (rs : list B) :
  Forall2 (λ x r, f x = Ok r) l rs -> mapM f l = Ok rs.
Proof.
  induction 1 as [|x r l rs Hx Hl IH]; simpl; [done|].
  unfold mbind at 1, Res_bind at 1. rewrite Hx.
  unfold mbind at 1, Res_bind at 1. by rewrite IH.
Qed.

Lemma mapM_Res_AssertFailed {A B} (f : A -> Res B) (l : list A) :
  mapM f l = AssertFailed -> Exists (λ x, f x = AssertFailed) l.
Proof.
  induction l as [|x l IH]; simpl; [done|].
  unfold mbind at 1, Res_bind at 1. destruct (f x) as [r| |] eqn:E; try done.
  - unfold mbind at 1, Res_bind at 1. destruct (mapM f l) as [rs| |]; try done.
    intros _. right. by apply IH.
  - intros _. by left.
Qed.



Section ScopeFacts.
Context `{Collaborators}.


Lemma build_all_cfgs_built `{!CfgProviderLaws} (scope : list DexMethod) :
  Forall (λ m, ∀ c, get_code m = Some c -> editable_cfg_built c = true)
         (build_all_cfgs scope).
Proof.
  unfold build_all_cfgs. apply Forall_fmap, Forall_forall. intros m _ c. simpl.
  destruct (get_code m) as [c0|] eqn:Hc; simpl.
  - intros [= <-]. apply built_after_build.
  - by rewrite Hc.
Qed.



(** X3: with a CFG provider that keeps its contract and a DCE that
    keeps the CFG it is given, the assertion at the top of the loop
    never fires: no run of the pass ends in [always_assert], whatever
    the scope, the engine and the fuel. *)
Theorem run_pass_never_aborts `{!CfgProviderLaws} (fuel : nat) (pass : Pass)
  (conf : ConfigFiles) (scope : list DexMethod) :
  dce_keeps_cfg ->
  run_pass fuel pass conf scope ≠ AssertFailed.
Proof.
  intros Hdce. unfold run_pass. unfold mbind at 1, Res_bind.
  destruct (mapM _ _) as [results| |] eqn:E; try done.
  intros _. apply mapM_Res_AssertFailed in E.
  apply Exists_exists in E as (m & Hin & Hm).
  pose proof (build_all_cfgs_built scope) as Hbuilt.
  rewrite Forall_forall in Hbuilt.
  by apply (process_method_not_aborted _ _ _ _ Hdce (Hbuilt m Hin)) in Hm.
Qed.

(** ** The metrics reported *)

Lemma report_opcodes_eq (opcodes : gmap Z Z) (mgr : list (string * Z)) :
  report_opcodes opcodes mgr = mgr ++ (opcode_metric <$> map_to_list opcodes).
Proof.
  unfold report_opcodes. revert mgr.
  induction (map_to_list opcodes) as [|p l IH]; intros mgr; csimpl.
  - by rewrite app_nil_r.
  - rewrite IH. unfold incr_metric. by rewrite <- app_assoc.
Qed.

Lemma report_metrics_eq (stats : Stats) (sss : SharedStateStats)
  (mgr : list (string * Z)) :
  report_metrics stats sss mgr
  = mgr ++ metrics_before_opcodes stats sss
    ++ (opcode_metric <$> map_to_list (eliminated_opcodes stats))
    ++ metrics_after_opcodes stats.
Proof.
  unfold report_metrics. rewrite report_opcodes_eq. unfold incr_metric.
  unfold metrics_before_opcodes, metrics_after_opcodes.
  rewrite <- !app_assoc. done.
Qed.


End ScopeFacts.

(** ** The pass configuration *)


(** ** The totals of a pass *)

Section TotalsFacts.
Context `{Collaborators}.

Lemma run_pass_intro (fuel : nat) (pass : Pass) (conf : ConfigFiles)
  (scope : list DexMethod) (results : list (Stats * DexMethod * list Event)) :
  Forall2 (λ method r,
             process_method pass
               (make_shared_state conf (build_all_cfgs scope)) method fuel
             = Ok r)
          (build_all_cfgs scope) results ->
  run_pass fuel pass conf scope
  = Ok {| methods := results.*1.*2;
          worker_calls := results.*2;
          metrics :=
            report_metrics
              (reduce_methods aggregate_stats Stats_default
                 (work_assignment (reduce_num_threads pass) (results.*1.*1)))
              (shared_get_stats
                 (make_shared_state conf (build_all_cfgs scope))) [] |}.
Proof.
  intros Hres. unfold run_pass. by rewrite (mapM_Res_Ok _ _ _ Hres).
Qed.






(** ** Counters that add up *)

Lemma foldr_Zadd_app (l k : list Z) :
  foldr Z.add 0 (l ++ k) = foldr Z.add 0 l + foldr Z.add 0 k.
Proof. induction l as [|x l IH]; simpl; lia. Qed.

Lemma foldr_Zadd_perm (l k : list Z) :
  l ≡ₚ k -> foldr Z.add 0 l = foldr Z.add 0 k.
Proof. induction 1; simpl; lia. Qed.

Section Additive.
Variable f : Stats -> Z.
Hypothesis f_aggregate :
  ∀ a b, f (aggregate_stats a b) = SizeT.add (f a) (f b).
Hypothesis f_default : f Stats_default = 0.

Lemma additive_foldl (l : list Stats) (a : Stats) :
  SizeT.in_range (f a) ->
  f (foldl aggregate_stats a l)
  = SizeT.wrap (f a + foldr Z.add 0 (f <$> l)).
Proof.
  revert a. induction l as [|x l IH]; intros a Ha; csimpl.
  - rewrite Z.add_0_r. symmetry. by apply SizeT_wrap_small.
  - rewrite IH by (rewrite f_aggregate; apply SizeT_add_in_range).
    rewrite f_aggregate. size_t_ring.
Qed.

Lemma additive_reduce_methods (chunks : list (list Stats)) :
  f (reduce_methods aggregate_stats Stats_default chunks)
  = wrapped_sum (f <$> concat chunks).
Proof.
  unfold reduce_methods, wrapped_sum.
  rewrite additive_foldl by (rewrite f_default; done).
  rewrite f_default, Z.add_0_l.
  induction chunks as [|chunk chunks IH]; csimpl; [done|].
  rewrite fmap_app, foldr_Zadd_app.
  rewrite additive_foldl by (rewrite f_default; done).
  rewrite f_default, Z.add_0_l.
  unfold SizeT.wrap in *.
  rewrite Zplus_mod_idemp_l.
  rewrite (Zplus_mod (foldr Z.add 0 (f <$> chunk))), IH.
  by rewrite <- Zplus_mod.
Qed.

End Additive.

Lemma lookup_report_metrics_skipped (stats : Stats) (sss : SharedStateStats) :
  report_metrics stats sss [] !! (length (report_metrics stats sss []) - 2)%nat
  = Some ("num_skipped_due_to_too_many_registers",
          skipped_due_to_too_many_registers stats).
Proof.
  rewrite report_metrics_eq, app_nil_l.
  remember (metrics_before_opcodes stats sss) as before eqn:Hbefore.
  remember (opcode_metric <$> map_to_list (eliminated_opcodes stats)) as ops.
  rewrite !length_app.
  change (length (metrics_after_opcodes stats)) with 2%nat.
  rewrite lookup_app_r by lia. rewrite lookup_app_r by lia.
  replace (length before + (length ops + 2) - 2 - length before - length ops)%nat
    with 0%nat by lia.
  done.
Qed.

(** X8: in the metrics of a completed pass each additive counter is the
    sum, modulo [2^64], of that counter over the workers' results,
    whatever the scheduler did with them as long as it lost none:
    results, stores and array lengths captured, instructions
    eliminated, methods using the other tracked-location bit, and
    methods skipped for too many registers. *)
Theorem run_pass_counters_are_sums (fuel : nat) (pass : Pass)
  (conf : ConfigFiles) (scope : list DexMethod) (res : PassResult) :
  assignment_complete ->
  run_pass fuel pass conf scope = Ok res ->
  ∃ results,
    Forall2 (λ method r,
               process_method pass
                 (make_shared_state conf (build_all_cfgs scope)) method fuel
               = Ok r)
            (build_all_cfgs scope) results
    ∧ metrics res !! 0%nat
      = Some ("num_results_captured",
              wrapped_sum (results_captured <$> results.*1.*1))
    ∧ metrics res !! 1%nat
      = Some ("num_stores_captured",
              wrapped_sum (stores_captured <$> results.*1.*1))
    ∧ metrics res !! 2%nat
      = Some ("num_array_lengths_captured",
              wrapped_sum (array_lengths_captured <$> results.*1.*1))
    ∧ metrics res !! 3%nat
      = Some ("num_eliminated_instructions",
              wrapped_sum (instructions_eliminated <$> results.*1.*1))
    ∧ metrics res !! 5%nat
      = Some ("methods_using_other_tracked_location_bit",
              wrapped_sum
                (methods_using_other_tracked_location_bit <$> results.*1.*1))
    ∧ metrics res !! (length (metrics res) - 2)%nat
      = Some ("num_skipped_due_to_too_many_registers",
              wrapped_sum
                (skipped_due_to_too_many_registers <$> results.*1.*1)).
Proof.
  intros Hassign Hr.
  apply run_pass_Ok in Hr as (results & Hres & ->). simpl.
  exists results. split; [done|].
  assert (∀ f : Stats -> Z,
            (∀ a b, f (aggregate_stats a b) = SizeT.add (f a) (f b)) ->
            f Stats_default = 0 ->
            f (reduce_methods aggregate_stats Stats_default
                 (work_assignment (reduce_num_threads pass) results.*1.*1))
            = wrapped_sum (f <$> results.*1.*1)) as Hsum.
  { intros f Hf Hf0. rewrite (additive_reduce_methods f Hf Hf0).
    unfold wrapped_sum. f_equal. apply foldr_Zadd_perm.
    f_equiv. apply Hassign. }
  repeat split.
  - rewrite report_metrics_eq. simpl. by rewrite (Hsum results_captured).
  - rewrite report_metrics_eq. simpl. by rewrite (Hsum stores_captured).
  - rewrite report_metrics_eq. simpl.
    by rewrite (Hsum array_lengths_captured).
  - rewrite report_metrics_eq. simpl.
    by rewrite (Hsum instructions_eliminated).
  - rewrite report_metrics_eq. simpl.
    by rewrite (Hsum methods_using_other_tracked_location_bit).
  - rewrite lookup_report_metrics_skipped.
    by rewrite (Hsum skipped_due_to_too_many_registers).
Qed.

(** ** Passes that return *)



(** ** Scopes with nothing to optimise *)

Lemma foldl_aggregate_all_default (l : list Stats) :
  Forall (λ s, s = Stats_default) l ->
  foldl aggregate_stats Stats_default l = Stats_default.
Proof.
  induction 1 as [|s l -> Hl IH]; simpl; [done|].
  rewrite aggregate_stats_default_l by apply Stats_default_wf. done.
Qed.

Lemma process_method_nothing_to_optimize (fuel : nat) (pass : Pass)
  (ss : SharedState) (m : DexMethod) :
  nothing_to_optimize m ->
  ∃ m' log, process_method pass ss m fuel = Ok (Stats_default, m', log)
            ∧ (log = [] ∨ log = [EvClearCfg]).
Proof.
  intros Hm. unfold process_method, process_code.
  destruct (get_code m) as [c|] eqn:Hc.
  - destruct Hm as [Hm|Hm]; [congruence|]. rewrite Hm. simpl. eauto.
  - eauto.
Qed.

Lemma workers_nothing_to_optimize (fuel : nat) (pass : Pass)
  (ss : SharedState) (l : list DexMethod) :
  Forall nothing_to_optimize l ->
  ∃ results,
    Forall2 (λ method r, process_method pass ss method fuel = Ok r) l results
    ∧ Forall (λ r, r.1.1 = Stats_default ∧ (r.2 = [] ∨ r.2 = [EvClearCfg]))
             results.
Proof.
  induction 1 as [|m l Hm Hl (results & Hres & Hall)].
  - exists []. by split; constructor.
  - destruct (process_method_nothing_to_optimize fuel pass ss m Hm)
      as (m' & log & Hp & Hlog).
    exists ((Stats_default, m', log) :: results).
    split; constructor; done.
Qed.

(** X10: on a scope in which every method is without code or marked
    [no_optimizations] (the empty scope among them) the loop is never
    entered: the pass returns under any fuel, even none, every worker
    made no call or the single call [clear_cfg], and the totals
    reported are those of [Stats()]. *)
Theorem run_pass_nothing_to_optimize (fuel : nat) (pass : Pass)
  (conf : ConfigFiles) (scope : list DexMethod) :
  assignment_complete ->
  Forall nothing_to_optimize scope ->
  ∃ res,
    run_pass fuel pass conf scope = Ok res
    ∧ Forall (λ log, log = [] ∨ log = [EvClearCfg]) (worker_calls res)
    ∧ metrics res
      = report_metrics Stats_default
          (shared_get_stats (make_shared_state conf (build_all_cfgs scope)))
          [].
Proof.
  intros Hassign Hscope.
  set (ss := make_shared_state conf (build_all_cfgs scope)).
  assert (Forall nothing_to_optimize (build_all_cfgs scope)) as Hbuilt.
  { unfold build_all_cfgs. apply Forall_fmap.
    eapply Forall_impl; [exact Hscope|]. intros m [Hm|Hm]; simpl.
    - rewrite Hm. by left.
    - destruct (get_code m); by right. }
  destruct (workers_nothing_to_optimize fuel pass ss _ Hbuilt)
    as (results & Hres & Hall).
  rewrite (run_pass_intro _ _ _ _ _ Hres). eexists. split; [done|]. simpl.
  split.
  - apply Forall_fmap. eapply Forall_impl; [exact Hall|]. by intros r [_ ?].
  - fold ss. f_equal.
    rewrite (reduce_methods_sequential _ results.*1.*1); [| |apply Hassign].
    + apply foldl_aggregate_all_default.
      apply Forall_fmap, Forall_fmap.
      eapply Forall_impl; [exact Hall|]. by intros r [? _].
    + apply Forall_fmap, Forall_fmap.
      eapply Forall_impl; [exact Hall|]. intros r [Hr _]. simpl.
      rewrite Hr. apply Stats_default_wf.
Qed.

End TotalsFacts.

(** ** The further facts on the small collaborators *)


Lemma Toy_dce_keeps_cfg (converging : bool) :
  @dce_keeps_cfg Toy.cfg (Toy.collaborators converging).
Proof. by intros pure c Hc. Defined.


(** A worker that takes three turns makes twelve calls. *)
Lemma worker_call_sequence_witness :
  ∃ s m' log,
    @process_method Toy.cfg (Toy.collaborators true) Toy.pass ∅
      (Toy.method 2 false) 5 = Ok (s, m', log)
    ∧ length log = 12%nat
    ∧ ∃ n, log = @loop_calls Toy.cfg (Toy.collaborators true) Toy.pass ∅ n.
Proof.
  destruct (@process_method Toy.cfg (Toy.collaborators true) Toy.pass ∅
              (Toy.method 2 false) 5)
    as [[[s m'] log]| |] eqn:E; [|by vm_compute in E|by vm_compute in E].
  exists s, m', log. split; [done|].
  destruct (@worker_call_sequence Toy.cfg (Toy.collaborators true)
              Toy.pass ∅ (Toy.method 2 false) 5 (2%nat, true)
              s m' log eq_refl eq_refl E) as (n & _ & _ & Hlog & _).
  split; [|by exists n].
  vm_compute in E. by injection E as _ _ <-.
Defined.


(** Even with the engine that never settles, the pass is cut off by the
    fuel and not by the assertion. *)
Lemma run_pass_never_aborts_witness :
  @run_pass Toy.cfg (Toy.collaborators false) 5 Toy.pass Toy.conf Toy.scope
  = OutOfFuel
  ∧ @run_pass Toy.cfg (Toy.collaborators false) 5 Toy.pass Toy.conf Toy.scope
    ≠ AssertFailed.
Proof.
  split; [by vm_compute|].
  apply (@run_pass_never_aborts Toy.cfg (Toy.collaborators false)
           Toy_cfg_laws 5 Toy.pass Toy.conf Toy.scope
           (Toy_dce_keeps_cfg false)).
Defined.




(** Three instructions eliminated over the scope: two and one. *)
Lemma run_pass_counters_are_sums_witness :
  ∃ res (results : list (Stats * @DexMethod Toy.cfg * list Event)),
    @run_pass Toy.cfg (Toy.collaborators true) 5 Toy.pass Toy.conf Toy.scope
    = Ok res
    ∧ metrics res !! 3%nat = Some ("num_eliminated_instructions", 3)
    ∧ metrics res !! 3%nat
      = Some ("num_eliminated_instructions",
              wrapped_sum (instructions_eliminated <$> results.*1.*1)).
Proof.
  destruct (@run_pass Toy.cfg (Toy.collaborators true) 5 Toy.pass Toy.conf
              Toy.scope)
    as [res| |] eqn:E; [|by vm_compute in E|by vm_compute in E].
  destruct (@run_pass_counters_are_sums Toy.cfg (Toy.collaborators true) 5
              Toy.pass Toy.conf Toy.scope res
              (Toy_assignment_complete true) E)
    as (results & _ & _ & _ & _ & Helim & _).
  exists res, results. split; [done|]. split; [|done].
  vm_compute in E. by injection E as <-.
Defined.


(** A scope with nothing to optimise, run without fuel. *)
Lemma run_pass_nothing_to_optimize_witness :
  ∃ res,
    @run_pass Toy.cfg (Toy.collaborators false) 0 Toy.pass Toy.conf
      [Toy.abstract_method; Toy.method 4 true] = Ok res
    ∧ worker_calls res = [[]; [EvClearCfg]]
    ∧ last (metrics res) = Some ("num_max_iterations", 0).
Proof.
  destruct (@run_pass_nothing_to_optimize Toy.cfg (Toy.collaborators false) 0
              Toy.pass Toy.conf [Toy.abstract_method; Toy.method 4 true]
              (Toy_assignment_complete false))
    as (res & Hres & _ & _).
  { repeat first [apply Forall_nil_2 | apply Forall_cons_2].
    - by left.
    - by right. }
  exists res. split; [done|].
  vm_compute in Hres. by injection Hres as <-.
Defined.
